(** * mqtt_exporter: relabeling pipeline, metric store and collector

    A shallow embedding of [mqtt_exporter.py].  The functions of the
    exporter are transcribed one by one; Python dictionaries are
    insertion-ordered association lists, exceptions are an explicit
    [Raise] result, and the mutable configuration dictionaries that
    double as the metric store are threaded through a small state monad
    that also carries the log and the number of clock readings taken. *)

From Stdlib Require Import String Ascii List ZArith Bool Arith Lia.
From Stdlib Require Import Permutation Sorted.
Import ListNotations.

Open Scope string_scope.
Open Scope list_scope.

Set Implicit Arguments.

(** ** Exceptions *)

(** The exceptions the modelled code can raise.  [ReError] is [re.error]
    (a pattern or a replacement template that does not compile). *)
Inductive exn : Type :=
| KeyError (key : string)
| ValueError (what : string)
| TypeError (what : string)
| UnboundLocalError (var : string)
| ReError (pattern : string).

Inductive result (A : Type) : Type :=
| Ok (a : A)
| Raise (e : exn).

Arguments Ok {A} a.
Arguments Raise {A} e.

Definition rbind {A B : Type} (r : result A) (k : A -> result B) : result B :=
  match r with
  | Ok a => k a
  | Raise e => Raise e
  end.

Declare Scope result_scope.
Delimit Scope result_scope with res.
Notation "x <- r ;; k" := (rbind r (fun x => k))
  (at level 61, r at next level, right associativity) : result_scope.
Notation "' p <- r ;; k" := (rbind r (fun p => k))
  (at level 61, p pattern, r at next level, right associativity) : result_scope.

(** [[f(x) for x in xs]], stopping at the first exception. *)
Fixpoint traverse {A B : Type} (f : A -> result B) (xs : list A) : result (list B) :=
  match xs with
  | [] => Ok []
  | x :: xs' => (y <- f x ;; ys <- traverse f xs' ;; Ok (y :: ys))%res
  end.

(** ** Dictionaries

    A Python [dict] keeps its keys in insertion order and holds each key
    once; assigning to a key that is present keeps its position. *)
Module Dict.

Definition t (V : Type) : Type := list (string * V).

Definition keys {V} (d : t V) : list string := map fst d.
Definition values {V} (d : t V) : list V := map snd d.

(** The invariant of a dictionary: no key occurs twice. *)
Definition wf {V} (d : t V) : Prop := NoDup (keys d).

Fixpoint get {V} (d : t V) (k : string) : option V :=
  match d with
  | [] => None
  | (k', v) :: d' => if k' =? k then Some v else get d' k
  end.

(** [k in d] *)
Definition mem {V} (d : t V) (k : string) : bool :=
  match get d k with Some _ => true | None => false end.

(** [d[k]] *)
Definition getitem {V} (d : t V) (k : string) : result V :=
  match get d k with
  | Some v => Ok v
  | None => Raise (KeyError k)
  end.

(** [d[k] = v] *)
Fixpoint setitem {V} (d : t V) (k : string) (v : V) : t V :=
  match d with
  | [] => [(k, v)]
  | (k', v') :: d' =>
      if k' =? k then (k', v) :: d' else (k', v') :: setitem d' k v
  end.

(** [del d[k]], for a key that is present. *)
Fixpoint delitem {V} (d : t V) (k : string) : t V :=
  match d with
  | [] => []
  | (k', v') :: d' => if k' =? k then d' else (k', v') :: delitem d' k
  end.

(** [d.update(other)] *)
Definition update {V} (d other : t V) : t V :=
  fold_left (fun acc kv => setitem acc (fst kv) (snd kv)) other d.

End Dict.

(** ** String methods *)
Module Str.

(** [s.startswith(p)] *)
Definition startswith (s p : string) : bool := prefix p s.

(** [sub in s] *)
Fixpoint contains (s sub : string) : bool :=
  prefix sub s ||
  match s with
  | EmptyString => false
  | String _ s' => contains s' sub
  end.

(** The scan of [s.replace(old, new)] for a non-empty [old]: [skip]
    counts the characters of a replaced occurrence still to pass. *)
Fixpoint replace_scan (old new : string) (skip : nat) (s : string) : string :=
  match s with
  | EmptyString => EmptyString
  | String c s' =>
      match skip with
      | S k => replace_scan old new k s'
      | O =>
          if prefix old s
          then new ++ replace_scan old new (String.length old - 1) s'
          else String c (replace_scan old new 0 s')
      end
  end.

(** With an empty [old], [new] goes before every character and at the end. *)
Fixpoint intersperse (new s : string) : string :=
  match s with
  | EmptyString => new
  | String c s' => new ++ String c (intersperse new s')
  end.

(** [s.replace(old, new)]: every non-overlapping occurrence, from the left. *)
Definition replace (s old new : string) : string :=
  match old with
  | EmptyString => intersperse new s
  | String _ _ => replace_scan old new 0 s
  end.

(** [s.split(sep)] for a separator of one character. *)
Fixpoint split (s : string) (sep : ascii) : list string :=
  match s with
  | EmptyString => [EmptyString]
  | String c s' =>
      if Ascii.eqb c sep then EmptyString :: split s' sep
      else
        match split s' sep with
        | piece :: pieces => String c piece :: pieces
        | [] => [String c EmptyString]
        end
  end.

End Str.

(** [re.escape], as of Python 3.7: a backslash goes before each of the
    characters that are special in a pattern, and before no other. *)
Definition re_special_chars : list ascii :=
  list_ascii_of_string "()[]{}?*+-|^$\.&~# "
  ++ map ascii_of_nat [9; 10; 11; 12; 13].

Definition re_special (c : ascii) : bool := existsb (Ascii.eqb c) re_special_chars.

Fixpoint re_escape (s : string) : string :=
  match s with
  | EmptyString => EmptyString
  | String c s' =>
      if re_special c then String "\" (String c (re_escape s'))
      else String c (re_escape s')
  end.

(** ** Configuration values and helpers

    What the YAML loader hands over: scalars, sequences and mappings.
    A section of the configuration is a mapping or [None]. *)
#[local] Set Warnings "-register-all".

Inductive cfg : Type :=
| CNone
| CBool (b : bool)
| CInt (z : Z)
| CStr (s : string)
| CList (l : list cfg)
| CMap (d : list (string * cfg)).

(** [v is None] *)
Definition is_none (v : cfg) : bool :=
  match v with
  | CNone => true
  | _ => false
  end.

(** The truth value of [v] in a condition. *)
Definition truthy (v : cfg) : bool :=
  match v with
  | CNone => false
  | CBool b => b
  | CInt z => negb (Z.eqb z 0)
  | CStr s => negb (s =? "")
  | CList l => match l with [] => false | _ :: _ => true end
  | CMap d => match d with [] => false | _ :: _ => true end
  end.

(** The message of the [TypeError] of [_validate_required_fields]. *)
Definition required_error (parent : option string) (field : string) : exn :=
  TypeError
    match parent with
    | None => "'" ++ field ++ "' is a required field in configfile"
    | Some parent =>
        "'" ++ field ++ "' is a required parameter for field " ++ parent
        ++ " in configfile"
    end.

Fixpoint _validate_required_fields (config : Dict.t cfg) (parent : option string)
  (required_fields : list string) : result unit :=
  match required_fields with
  | [] => Ok tt
  | field :: rest =>
      match Dict.get config field with
      | None => Raise (required_error parent field)
      | Some v =>
          if is_none v then Raise (required_error parent field)
          else _validate_required_fields config parent rest
      end
  end.

(** [defaults] is a dictionary made for the call, so that updating it
    in place and returning a copy amounts to returning the update. *)
Definition _add_config_and_defaults {V} (config : option (Dict.t V))
  (defaults : Dict.t V) : Dict.t V :=
  match config with
  | Some config => Dict.update defaults config
  | None => defaults
  end.

Definition _strip_config (config : Dict.t cfg) (allowed_keys : list string)
  : Dict.t cfg :=
  filter (fun kv => existsb (String.eqb (fst kv)) allowed_keys && truthy (snd kv))
         config.

(** ** The libraries the exporter calls

    [float], [re] and [time] are not part of the exporter.  The
    development is parametric in them:
    - [float_of_string s] is [float(s)], [None] standing for [ValueError];
    - [re_match p s] says whether [re.match(p, s)] is not [None];
    - [re_sub p repl s] is [re.sub(p, repl, s)];
    - [clock_ms k] is [int(round(time.time() * 1000))] at the [k]-th
      reading of the clock since the process started. *)
Class PyLib : Type := {
  pyfloat : Type;
  float_of_string : string -> option pyfloat;
  re_match : string -> string -> result bool;
  re_sub : string -> string -> string -> result string;
  clock_ms : nat -> Z
}.

(** ** The log

    Only the records of level WARNING and above are kept; the [debug] and
    [info] calls of the source have no counterpart. *)
Inductive log_level : Type := WARNING | ERROR.

Inductive log_record : Type :=
| InvalidMetricType (type : string)
    (* logging.warning(f"Metric type: ..., is not a valid metric type. ...") *)
| ValueNotNumber (value name msg_topic : string).
    (* logging.exception(f"__value__ must be a number, was: ...") *)

Definition level_of (r : log_record) : log_level :=
  match r with
  | InvalidMetricType _ => WARNING
  | ValueNotNumber _ _ _ => ERROR
  end.

(** What lies outside the dictionaries: the log written so far and the
    number of clock readings taken so far. *)
Record world : Type := World {
  log : list log_record;
  ticks : nat
}.

(** ** Computations on a mutable object

    [M S A] is a computation that mutates an object of type [S], writes
    to the log, reads the clock, and ends with a value or an exception.
    The object as left behind is returned in both cases. *)
Definition M (S A : Type) : Type := S -> world -> result A * S * world.

Definition ret {S A} (a : A) : M S A := fun s w => (Ok a, s, w).

Definition bind {S A B} (m : M S A) (k : A -> M S B) : M S B :=
  fun s w =>
    match m s w with
    | (Ok a, s', w') => k a s' w'
    | (Raise e, s', w') => (Raise e, s', w')
    end.

Definition lift {S A} (r : result A) : M S A := fun s w => (r, s, w).

Definition get {S} : M S S := fun s w => (Ok s, s, w).

Definition modify {S} (f : S -> S) : M S unit := fun s w => (Ok tt, f s, w).

Definition logging {S} (r : log_record) : M S unit :=
  fun s w => (Ok tt, s, World (log w ++ [r]) (ticks w)).

Declare Scope M_scope.
Delimit Scope M_scope with M.
Notation "x <- m ;; k" := (bind m (fun x => k))
  (at level 61, m at next level, right associativity) : M_scope.
Notation "' p <- m ;; k" := (bind m (fun p => k))
  (at level 61, p pattern, m at next level, right associativity) : M_scope.
Notation "m ;; k" := (bind m (fun _ => k))
  (at level 61, right associativity) : M_scope.

(** [for x in xs: body(x)] where the body mutates [x]: the objects before
    the one that raises keep their changes, the ones after are untouched. *)
Fixpoint for_each {S} (body : M S unit) (xs : list S) (w : world)
  : result unit * list S * world :=
  match xs with
  | [] => (Ok tt, [], w)
  | x :: xs' =>
      match body x w with
      | (Ok _, x', w') =>
          let '(r, xs'', w'') := for_each body xs' w' in (r, x' :: xs'', w'')
      | (Raise e, x', w') => (Raise e, x' :: xs', w')
      end
  end.

(** ** Configuration records *)

(** A relabel rule, after [parse_and_validate_metric_config]: the five
    keys with defaults are present, [target_label] is required for
    [replace] only. *)
Record label_config : Type := LabelConfig {
  source_labels : list string;
  separator : string;
  regex : string;
  replacement : string;
  action : string;
  target_label : option string
}.

(** [msg.topic] and [str(msg.payload, 'utf-8')]. *)
Record message : Type := Message {
  msg_topic : string;
  msg_payload : string
}.

Definition METRIC_TYPES : list string :=
  ["gauge"; "counter"; "histogram"; "summary"].

Section Exporter.

Context {lib : PyLib}.

(** A value held in a label dictionary or in the store: a string, the
    float that [__value__] becomes, or the integer timestamp. *)
Inductive pyval : Type :=
| PStr (s : string)
| PFloat (x : pyfloat)
| PInt (z : Z).

(** An entry of [metric['prometheus_metric']]. *)
Record series : Type := Series {
  pm_name : string;
  label_values : list pyval;
  value : pyval
}.

(** The keys of a metric dictionary that [_export_to_prometheus] and the
    collector use.  A derived [_last_received] dictionary has no others. *)
Record mdict : Type := MDict {
  name : string;
  help : string;
  type : string;
  buckets : option string;
  label_names : option (list string);
  prometheus_metric : option (Dict.t series)
}.

(** A configured metric dictionary: the keys above and the ones that
    only [_update_metrics] reads.  [label_configs] is [None] when the key
    is absent. *)
Record metric : Type := Metric {
  self : mdict;
  topic : string;
  label_configs : option (list label_config);
  derived_metric : option mdict
}.

Definition with_self (m : metric) (d : mdict) : metric :=
  Metric d (topic m) (label_configs m) (derived_metric m).

Definition with_derived (m : metric) (d : option mdict) : metric :=
  Metric (self m) (topic m) (label_configs m) d.

(** ** Relabeling *)

(** [label_config['separator'].join([labels[x] for x in label_config['source_labels']])] *)
Definition joined_source (label_config : label_config) (labels : Dict.t string)
  : result string :=
  (vs <- traverse (Dict.getitem labels) (source_labels label_config) ;;
   Ok (String.concat (separator label_config) vs))%res.

Definition _label_config_match (label_config : label_config) (labels : Dict.t string)
  : result bool :=
  (source <- joined_source label_config labels ;;
   matched <- re_match (regex label_config) source ;;
   if action label_config =? "keep" then Ok matched
   else if action label_config =? "drop" then Ok (negb matched)
   else Ok false)%res.

(** Returns the labels as the call leaves them. *)
Definition _label_config_rename (label_config : label_config) (labels : Dict.t string)
  : result (Dict.t string) :=
  (source <- joined_source label_config labels ;;
   matched <- re_match (regex label_config) source ;;
   if matched then
     result <- re_sub (regex label_config) (replacement label_config) source ;;
     match target_label label_config with
     | Some target => Ok (Dict.setitem labels target result)
     | None => Raise (KeyError "target_label")
     end
   else Ok labels)%res.

(** Returns the verdict together with the labels as the call leaves them. *)
Fixpoint _apply_label_config (labels : Dict.t string) (label_configs : list label_config)
  : result (bool * Dict.t string) :=
  match label_configs with
  | [] => Ok (true, labels)
  | label_config :: rest =>
      if action label_config =? "replace" then
        (labels' <- _label_config_rename label_config labels ;;
         _apply_label_config labels' rest)%res
      else
        (keep <- _label_config_match label_config labels ;;
         if keep then _apply_label_config labels rest
         else Ok (false, labels))%res
  end.

Definition finalize_labels (labels : Dict.t pyval) : result (Dict.t pyval) :=
  (v <- Dict.getitem labels "__value__" ;;
   let labels := Dict.setitem labels "value" v in
   t <- Dict.getitem labels "__topic__" ;;
   let labels := Dict.setitem labels "topic" t in
   Ok (filter (fun kv => negb (Str.startswith (fst kv) "__")) labels))%res.

(** ** The metric store *)

(** [sorted(items, key=operator.itemgetter(0))]: a stable sort on the
    keys, strings being compared character by character. *)
Fixpoint insert_by_key {V} (x : string * V) (l : list (string * V))
  : list (string * V) :=
  match l with
  | [] => [x]
  | y :: l' =>
      if String.leb (fst x) (fst y) then x :: l else y :: insert_by_key x l'
  end.

Definition _get_sorted_tuple_list {V} (source : Dict.t V) : list (string * V) :=
  fold_right insert_by_key [] source.

(** [label_names, label_values = list(zip( *sorted_labels ))], the
    transposition of the sorted pairs: with no pair at all the unpacking
    has nothing to bind. *)
Definition unzip_labels (sorted_labels : list (string * pyval))
  : result (list string * list pyval) :=
  match sorted_labels with
  | [] => Raise (ValueError "not enough values to unpack (expected 2, got 0)")
  | _ :: _ => Ok (map fst sorted_labels, map snd sorted_labels)
  end.

(** An item of [''.join(label_values)] must be a string. *)
Definition str_item (v : pyval) : result string :=
  match v with
  | PStr s => Ok s
  | _ => Raise (TypeError "sequence item: expected str instance")
  end.

(** [':'.join([''.join(label_names), ''.join(label_values)])] *)
Definition series_key (label_names : list string) (label_values : list pyval)
  : result string :=
  (vs <- traverse str_item label_values ;;
   Ok (String.concat ":" [String.concat "" label_names; String.concat "" vs]))%res.

(** The key under which a label dictionary is stored: ['value'] is set
    aside, the other items are sorted and their names and values joined. *)
Definition series_key_of (labels : Dict.t pyval) : result string :=
  ('(names, vals) <-
     unzip_labels (_get_sorted_tuple_list (Dict.delitem labels "value")) ;;
   series_key names vals)%res.

(** [metric.get('prometheus_metric', {})] *)
Definition store (m : mdict) : Dict.t series :=
  match prometheus_metric m with
  | Some d => d
  | None => []
  end.

Definition set_names (name' : string) (names : list string) (m : mdict) : mdict :=
  MDict name' (help m) (type m) (buckets m) (Some names) (prometheus_metric m).

(** [metric.setdefault('prometheus_metric', {}).setdefault(key, {})]
    followed by the three assignments to the entry. *)
Definition set_series (key : string) (e : series) (m : mdict) : mdict :=
  MDict (name m) (help m) (type m) (buckets m) (label_names m)
        (Some (Dict.setitem (store m) key e)).

Definition _export_to_prometheus (name' : string) (labels : Dict.t pyval)
  : M mdict unit :=
  (metric <- get ;;
   (if existsb (String.eqb (type metric)) METRIC_TYPES then ret tt
    else logging (InvalidMetricType (type metric))) ;;
   v <- lift (Dict.getitem labels "value") ;;
   let labels := Dict.delitem labels "value" in
   let sorted_labels := _get_sorted_tuple_list labels in
   '(names, vals) <- lift (unzip_labels sorted_labels) ;;
   modify (set_names name' names) ;;
   key <- lift (series_key names vals) ;;
   modify (set_series key (Series name' vals v)))%M.

(** ** Message handling *)

(** [time.time()] read once more. *)
Definition time_ms {St} : M St Z :=
  fun s w => (Ok (clock_ms (ticks w)), s, World (log w) (1 + ticks w)).

(** A computation on [metric] itself, seen from the configured dictionary. *)
Definition on_self {A} (m : M mdict A) : M metric A :=
  fun metric w =>
    let '(r, d, w') := m (self metric) w in (r, with_self metric d, w').

(** A computation on the dictionary [d] held under ['derived_metric']. *)
Definition on_derived {A} (d : mdict) (m : M mdict A) : M metric A :=
  fun metric w =>
    let '(r, d', w') := m d w in (r, with_derived metric (Some d'), w').

Definition initial_labels (metric : metric) (msg : message) : Dict.t string :=
  [("__topic__", topic metric);
   ("__msg_topic__", msg_topic msg);
   ("__value__", msg_payload msg)].

(** [if 'label_configs' in metric: ... _apply_label_config(labels, ...)] *)
Definition relabel (metric : metric) (labels : Dict.t string)
  : result (bool * Dict.t string) :=
  match label_configs metric with
  | Some label_configs => _apply_label_config labels label_configs
  | None => Ok (true, labels)
  end.

Definition new_derived_metric (metric : metric) : mdict :=
  MDict (name (self metric) ++ "_last_received")
        ("Last received message for '" ++ name (self metric) ++ "'")
        "gauge" None None None.

(** What [metric.setdefault('derived_metric', {...})] returns. *)
Definition derived_setdefault (metric : metric) : mdict :=
  match derived_metric metric with
  | Some d => d
  | None => new_derived_metric metric
  end.

(** [labels['__value__'] = float(...)], on a dictionary of strings. *)
Definition with_float (labels : Dict.t string) (x : pyfloat) : Dict.t pyval :=
  Dict.setitem (map (fun kv => (fst kv, PStr (snd kv))) labels) "__value__" (PFloat x).

(** The body of the loop of [_update_metrics], for one metric. *)
Definition update_metric (msg : message) : M metric unit :=
  (metric <- get ;;
   '(accepted, labels) <- lift (relabel metric (initial_labels metric msg)) ;;
   if negb accepted then ret tt
   else
     v <- lift (Dict.getitem labels "__value__") ;;
     match float_of_string (Str.replace v "," ".") with
     | None =>
         v' <- lift (Dict.getitem labels "__value__") ;;
         t <- lift (Dict.getitem labels "__msg_topic__") ;;
         logging (ValueNotNumber v' (name (self metric)) t)
     | Some x =>
         labels <- lift (finalize_labels (with_float labels x)) ;;
         let derived := derived_setdefault metric in
         modify (fun m => with_derived m (Some derived)) ;;
         now <- time_ms ;;
         let derived_labels := [("topic", PStr (topic metric)); ("value", PInt now)] in
         on_self (_export_to_prometheus (name (self metric)) labels) ;;
         on_derived derived (_export_to_prometheus (name derived) derived_labels)
     end)%M.

Definition _update_metrics (msg : message) : M (list metric) unit :=
  for_each (update_metric msg).

(** ** Topic matching *)

Definition _topic_matches (topic1 topic2 : string) : result bool :=
  if topic1 =? topic2 then Ok true
  else if negb (Str.contains topic1 "+") && negb (Str.contains topic1 "#")
  then Ok false
  else
    let topic1 := re_escape topic1 in
    let regex := Str.replace (Str.replace topic1 "/\#" ".*$") "\+" "[^/]+" in
    re_match regex topic2.

(** [userdata] maps each topic pattern to the metrics configured for it. *)
Definition _on_message (msg : message) : M (Dict.t (list metric)) unit :=
  for_each (fun entry w =>
    match _topic_matches (fst entry) (msg_topic msg) with
    | Ok true =>
        let '(r, metrics, w') := _update_metrics msg (snd entry) w in
        (r, (fst entry, metrics), w')
    | Ok false => (Ok tt, entry, w)
    | Raise e => (Raise e, entry, w)
    end).

(** ** The collector *)

(** The metric families of the client library are taken as plain
    records: which constructor was called, with which arguments, and the
    samples added by [add_metric]. *)
Inductive family_kind : Type :=
| GaugeMetricFamily
| CounterMetricFamily
| HistogramMetricFamily
| SummaryMetricFamily.

Record family : Type := Family {
  kind : family_kind;
  family_name : string;
  documentation : string;
  family_buckets : option (list string);
  family_labels : option (list string);
  samples : list (list pyval * pyval)
}.

(** [for key, pm in m.get('prometheus_metric', {}).items():
       f.add_metric(pm['label_values'], pm['value'])] *)
Definition add_metrics (m : mdict) : list (list pyval * pyval) :=
  map (fun kv => (label_values (snd kv), value (snd kv))) (store m).

Definition append_by_type (types : Dict.t (list mdict)) (m : mdict)
  : result (Dict.t (list mdict)) :=
  (l <- Dict.getitem types (type m) ;;
   Ok (Dict.setitem types (type m) (l ++ [m])))%res.

Fixpoint collect_types (types : Dict.t (list mdict)) (metrics : list metric)
  : result (Dict.t (list mdict)) :=
  match metrics with
  | [] => Ok types
  | metric :: rest =>
      (types <- append_by_type types (self metric) ;;
       types <- match derived_metric metric with
                | Some derived => append_by_type types derived
                | None => Ok types
                end ;;
       collect_types types rest)%res
  end.

Fixpoint collect_topics (types : Dict.t (list mdict))
  (userdata : Dict.t (list metric)) : result (Dict.t (list mdict)) :=
  match userdata with
  | [] => Ok types
  | (_, outer_metric) :: rest =>
      (types <- collect_types types outer_metric ;;
       collect_topics types rest)%res
  end.

Definition _get_metrics_by_type (userdata : Dict.t (list metric))
  : result (list mdict * list mdict * list mdict * list mdict) :=
  (types <- collect_topics (map (fun t => (t, [])) METRIC_TYPES) userdata ;;
   g <- Dict.getitem types "gauge" ;;
   c <- Dict.getitem types "counter" ;;
   h <- Dict.getitem types "histogram" ;;
   s <- Dict.getitem types "summary" ;;
   Ok (g, c, h, s))%res.

(** What a generator has yielded, and how it ended. *)
Definition generated : Type := list family * result unit.

Fixpoint yield_each {A} (body : A -> result family) (xs : list A) : generated :=
  match xs with
  | [] => ([], Ok tt)
  | x :: xs' =>
      match body x with
      | Ok f => let '(fs, r) := yield_each body xs' in (f :: fs, r)
      | Raise e => ([], Raise e)
      end
  end.

Definition and_then (g1 g2 : generated) : generated :=
  match snd g1 with
  | Ok _ => (fst g1 ++ fst g2, snd g2)
  | Raise e => g1
  end.

Definition gauge_family (gm : mdict) : family :=
  Family GaugeMetricFamily (name gm) (help gm) None
         (Some (match label_names gm with Some l => l | None => [] end))
         (add_metrics gm).

Definition counter_family (cm : mdict) : family :=
  Family CounterMetricFamily (name cm) (help cm) None
         (label_names cm) (add_metrics cm).

Definition histogram_family (hm : mdict) (buckets : list string) : family :=
  Family HistogramMetricFamily (name hm) (help hm)
         (if (0 <? List.length buckets)%nat then Some buckets else None)
         (label_names hm) (add_metrics hm).

(** The summary loop calls [HistogramMetricFamily] as well. *)
Definition summary_family (sm : mdict) : family :=
  Family HistogramMetricFamily (name sm) (help sm) None
         (label_names sm) (add_metrics sm).

(** The local variable [c] of [collect], unbound until the counter loop
    has run its body once. *)
Definition read_c (c : option family) : result family :=
  match c with
  | Some f => Ok f
  | None => Raise (UnboundLocalError "c")
  end.

Definition histogram_step (c : option family) (hm : mdict) : result family :=
  (buckets <- match buckets hm with
              | Some b => Ok b
              | None => Raise (KeyError "buckets")
              end ;;
   let h := histogram_family hm (Str.split buckets ",") in
   read_c c)%res.

Definition summary_step (c : option family) (sm : mdict) : result family :=
  let s := summary_family sm in
  read_c c.

Definition collect (userdata : Dict.t (list metric)) : generated :=
  match _get_metrics_by_type userdata with
  | Raise e => ([], Raise e)
  | Ok (gauge_metrics, counter_metrics, histogram_metrics, summary_metrics) =>
      let counters := map counter_family counter_metrics in
      let c := last (map Some counters) None in
      and_then (yield_each (fun gm => Ok (gauge_family gm)) gauge_metrics)
     (and_then (counters, Ok tt)
     (and_then (yield_each (histogram_step c) histogram_metrics)
               (yield_each (summary_step c) summary_metrics)))
  end.

(** ** Topics *)

(** [t[metric['topic']].append(metric)] on a [defaultdict(list)]. *)
Definition append_by_topic (t : Dict.t (list metric)) (m : metric)
  : Dict.t (list metric) :=
  Dict.setitem t (topic m)
    (match Dict.get t (topic m) with
     | Some l => l ++ [m]
     | None => [m]
     end).

Definition _group_by_topic (metrics : list metric) : Dict.t (list metric) :=
  fold_left append_by_topic metrics [].

(** The topics that [_on_connect] subscribes to, in the order of the
    calls of [client.subscribe]. *)
Definition _on_connect (userdata : Dict.t (list metric)) : list string :=
  Dict.keys userdata.

End Exporter.

Arguments pyval : clear implicits.
Arguments series : clear implicits.
Arguments mdict : clear implicits.
Arguments metric : clear implicits.
Arguments family : clear implicits.

(** ** A sample of the libraries

    An instance of [PyLib] on which the definitions can be run: a
    matcher for a fragment of the pattern language, the substitution of
    the configuration defaults, decimal literals, and a clock. *)
Module Re.

Inductive cset : Type :=
| Chr (c : ascii)                              (* a literal character *)
| AnyChar                                      (* [.]: anything but a newline *)
| Class (negated : bool) (members : list ascii). (* [[...]] and [[^...]] *)

Inductive quant : Type := Once | Star | Plus | Opt.

Inductive item : Type :=
| Atom (a : cset) (q : quant)
| Bol                                          (* [^] *)
| Eol.                                         (* [$] *)

Inductive token : Type :=
| TSet (a : cset)
| TQuant (q : quant)
| TBol
| TEol
| TOpen
| TClose.

Inductive mode : Type :=
| Normal
| Escaped
| ClassStart
| InClass (negated : bool) (members : list ascii).

Definition alnum (c : ascii) : bool :=
  let n := nat_of_ascii c in
  (Nat.leb 48 n && Nat.leb n 57) || (Nat.leb 65 n && Nat.leb n 90)
  || (Nat.leb 97 n && Nat.leb n 122).

(** Patterns outside the fragment give [None]: alternation, braces,
    escapes of letters and digits, ranges and escapes inside a class. *)
Fixpoint lex (m : mode) (s : string) : option (list token) :=
  match s with
  | EmptyString => match m with Normal => Some [] | _ => None end
  | String c s' =>
      match m with
      | Normal =>
          if Ascii.eqb c "\" then lex Escaped s'
          else if Ascii.eqb c "[" then lex ClassStart s'
          else if existsb (Ascii.eqb c) (list_ascii_of_string "{}|") then None
          else
            option_map
              (cons (if Ascii.eqb c "." then TSet AnyChar
                     else if Ascii.eqb c "^" then TBol
                     else if Ascii.eqb c "$" then TEol
                     else if Ascii.eqb c "(" then TOpen
                     else if Ascii.eqb c ")" then TClose
                     else if Ascii.eqb c "*" then TQuant Star
                     else if Ascii.eqb c "+" then TQuant Plus
                     else if Ascii.eqb c "?" then TQuant Opt
                     else TSet (Chr c)))
              (lex Normal s')
      | Escaped =>
          if alnum c then None
          else option_map (cons (TSet (Chr c))) (lex Normal s')
      | ClassStart =>
          if Ascii.eqb c "^" then lex (InClass true []) s'
          else if existsb (Ascii.eqb c) (list_ascii_of_string "]\-[") then None
          else lex (InClass false [c]) s'
      | InClass negated members =>
          if Ascii.eqb c "]" then
            match members with
            | [] => None
            | _ :: _ =>
                option_map (cons (TSet (Class negated (rev members))))
                           (lex Normal s')
            end
          else if existsb (Ascii.eqb c) (list_ascii_of_string "\-[") then None
          else lex (InClass negated (c :: members)) s'
      end
  end.

(** Quantifiers join the character before them; a group that is not
    itself repeated only brackets a part of the sequence.  [depth] counts
    the groups still open. *)
Fixpoint build (depth : nat) (ts : list token) : option (list item) :=
  match ts with
  | [] => match depth with O => Some [] | S _ => None end
  | TSet a :: ts' =>
      match ts' with
      | TQuant q :: ts'' =>
          match ts'' with
          | TQuant _ :: _ => None
          | _ => option_map (cons (Atom a q)) (build depth ts'')
          end
      | _ => option_map (cons (Atom a Once)) (build depth ts')
      end
  | TQuant _ :: _ => None
  | TBol :: ts' =>
      match ts' with
      | TQuant _ :: _ => None
      | _ => option_map (cons Bol) (build depth ts')
      end
  | TEol :: ts' =>
      match ts' with
      | TQuant _ :: _ => None
      | _ => option_map (cons Eol) (build depth ts')
      end
  | TOpen :: ts' =>
      match ts' with
      | TQuant _ :: _ => None
      | _ => build (S depth) ts'
      end
  | TClose :: ts' =>
      match ts' with
      | TQuant _ :: _ => None
      | _ => match depth with O => None | S d => build d ts' end
      end
  end.

Definition compile (pattern : string) : option (list item) :=
  match lex Normal pattern with
  | Some ts => build 0 ts
  | None => None
  end.

Definition newline : ascii := ascii_of_nat 10.

Definition accepts (a : cset) (c : ascii) : bool :=
  match a with
  | Chr c' => Ascii.eqb c c'
  | AnyChar => negb (Ascii.eqb c newline)
  | Class negated members => xorb negated (existsb (Ascii.eqb c) members)
  end.

(** [$]: at the end, or before a newline that ends the string. *)
Definition at_end (s : string) : bool :=
  match s with
  | EmptyString => true
  | String c EmptyString => Ascii.eqb c newline
  | _ => false
  end.

(** Zero or more characters of [a], then [k]. *)
Fixpoint star (a : cset) (k : bool -> string -> bool) (at_start : bool) (s : string)
  : bool :=
  k at_start s ||
  match s with
  | String c s' => accepts a c && star a k false s'
  | EmptyString => false
  end.

(** Whether the items match a prefix of [s]; [at_start] tells whether
    [s] is the whole subject. *)
Fixpoint run (r : list item) (at_start : bool) (s : string) : bool :=
  match r with
  | [] => true
  | Bol :: r' => at_start && run r' at_start s
  | Eol :: r' => at_end s && run r' at_start s
  | Atom a Once :: r' =>
      match s with
      | String c s' => accepts a c && run r' false s'
      | EmptyString => false
      end
  | Atom a Star :: r' => star a (run r') at_start s
  | Atom a Plus :: r' =>
      match s with
      | String c s' => accepts a c && star a (run r') false s'
      | EmptyString => false
      end
  | Atom a Opt :: r' =>
      run r' at_start s ||
      match s with
      | String c s' => accepts a c && run r' false s'
      | EmptyString => false
      end
  end.

(** [re.match(pattern, s) is not None], on the fragment; a pattern
    outside of it is refused like one that does not compile. *)
Definition matches (pattern s : string) : result bool :=
  match compile pattern with
  | Some r => Ok (run r true s)
  | None => Raise (ReError pattern)
  end.

(** [re.sub] for the defaults that [parse_and_validate_metric_config]
    gives to [regex] and [replacement]: the pattern matches at most once,
    at the start, and the replacement is the text it matched. *)
Definition sub (pattern repl s : string) : result string :=
  if (pattern =? "^(.*)$") && (repl =? "\1") then Ok s
  else Raise (ReError pattern).

End Re.

(** Decimal literals: an optional sign, digits, and an optional point
    followed by digits.  The literal [mantissa / 10 ^ places] is kept as
    read. *)
Record decimal : Type := Decimal {
  mantissa : Z;
  places : nat
}.

Definition digit_of (c : ascii) : option Z :=
  let n := nat_of_ascii c in
  if Nat.leb 48 n && Nat.leb n 57 then Some (Z.of_nat (n - 48)) else None.

Fixpoint read_digits (acc : Z) (places : nat) (point seen : bool) (s : string)
  : option decimal :=
  match s with
  | EmptyString => if seen then Some (Decimal acc places) else None
  | String c s' =>
      match digit_of c with
      | Some d =>
          read_digits (10 * acc + d) (if point then S places else places)
                      point true s'
      | None =>
          if Ascii.eqb c "." && negb point && seen
          then read_digits acc places true seen s'
          else None
      end
  end.

Definition read_decimal (s : string) : option decimal :=
  match s with
  | String "-" s' =>
      option_map (fun d => Decimal (- mantissa d) (places d))
                 (read_digits 0 0 false false s')
  | String "+" s' => read_digits 0 0 false false s'
  | _ => read_digits 0 0 false false s
  end.

Definition sample_lib : PyLib :=
  {| pyfloat := decimal;
     float_of_string := read_decimal;
     re_match := Re.matches;
     re_sub := Re.sub;
     clock_ms := fun k => (Z.of_nat k + 1700000000000)%Z |}.

(** ** Sample configurations and messages *)
Module Sample.

Definition w0 : world := World [] 0.

Definition kitchen : message := Message "home/kitchen/temp" "21.5".

Definition warm : message := Message "home/kitchen/temp" "warm".

Definition temp_dict : mdict sample_lib :=
  MDict "temp" "Temperature" "gauge" None None None.

(** A gauge on [home/+/temp] with the given rules. *)
Definition temp_with (rules : option (list label_config)) : metric sample_lib :=
  Metric temp_dict "home/+/temp" rules None.

Definition temp : metric sample_lib := temp_with None.

Definition labels0 : Dict.t string := initial_labels temp kitchen.

(** A rule with the separator and the replacement that the loader
    gives by default. *)
Definition rule (action : string) (source_labels : list string)
  (regex : string) (target_label : option string) : label_config :=
  LabelConfig source_labels ";" regex "\1" action target_label.

Definition keep_garage : label_config :=
  rule "keep" ["__msg_topic__"] "home/garage/.*" None.

Definition drop_kitchen : label_config :=
  rule "drop" ["__msg_topic__"] "home/kitchen/.*" None.

Definition sensor_from_topic : label_config :=
  rule "replace" ["__msg_topic__"] "^(.*)$" (Some "sensor").

Definition room_from_sensor : label_config :=
  rule "replace" ["sensor"] "^(.*)$" (Some "room").

Definition hashmod_topic : label_config :=
  rule "hashmod" ["__msg_topic__"] "^(.*)$" None.

Definition hashmod_sensor : label_config :=
  rule "hashmod" ["sensor"] "^(.*)$" None.

Definition summary_metric : metric sample_lib :=
  Metric (MDict "latency" "Latency" "summary" None None None) "net/latency"
         None None.

Definition counter_metric : metric sample_lib :=
  Metric (MDict "packets" "Packets" "counter" None None None) "net/packets"
         None None.

Definition untyped_metric : metric sample_lib :=
  Metric (MDict "level" "Level" "untyped" None None None) "tank/level"
         None None.

Definition room_first : Dict.t (pyval sample_lib) :=
  [("room", PStr "kitchen"); ("topic", PStr "home/+/temp");
   ("value", @PFloat sample_lib (Decimal 215 1))].

Definition topic_first : Dict.t (pyval sample_lib) :=
  [("topic", PStr "home/+/temp"); ("value", @PFloat sample_lib (Decimal 220 1));
   ("room", PStr "kitchen")].

(** The state after [room_first] has been exported to [temp_dict]. *)
Definition exported_once : result unit * mdict sample_lib * world :=
  _export_to_prometheus "temp" room_first temp_dict w0.

End Sample.

(** ** More samples *)
Module Examples.

Definition mqtt_config : Dict.t cfg :=
  [("host", CStr "broker.lan"); ("keepalive", CInt 0);
   ("username", CStr "exporter"); ("password", CStr "")].

Definition mqtt_defaults : Dict.t cfg :=
  [("host", CStr "localhost"); ("port", CInt 1883)].

Definition only_topic : Dict.t (pyval sample_lib) :=
  [("topic", PStr "home/+/temp")].

Definition userdata : Dict.t (list (metric sample_lib)) :=
  [("home/+/temp", [Sample.temp]); ("net/packets", [Sample.counter_metric])].

Definition soil : message := Message "garden/soil" "0.4".

Definition sensor_then_drop : list label_config :=
  [Sample.sensor_from_topic; Sample.drop_kitchen].

Definition room_then_keep : metric sample_lib :=
  Sample.temp_with (Some [Sample.room_from_sensor; Sample.keep_garage]).

Definition finished_labels : Dict.t (pyval sample_lib) :=
  [("__topic__", PStr "home/+/temp"); ("__msg_topic__", PStr "home/kitchen/temp");
   ("__value__", @PFloat sample_lib (Decimal 215 1)); ("room", PStr "kitchen")].

End Examples.

(** ** Vocabulary of the properties *)

Section Vocabulary.

Context {lib : PyLib}.

(** The world after the type check of [_export_to_prometheus]. *)
Definition type_checked (m : mdict lib) (w : world) : world :=
  if existsb (String.eqb (type m)) METRIC_TYPES then w
  else World (log w ++ [InvalidMetricType (type m)]) (ticks w).

(** The label dictionary that [finalize_labels] hands to the store: the
    value, the topic, and strings under every other key. *)
Definition exportable (labels : Dict.t (pyval lib)) (v : pyval lib) : Prop :=
  Dict.wf labels /\
  Dict.get labels "value" = Some v /\
  Dict.get labels "topic" <> None /\
  forall k u, In (k, u) labels -> k <> "value" -> exists s, u = PStr s.

(** The key of the only series of a derived metric. *)
Definition last_received_key (m : metric lib) : string := "topic:" ++ topic m.

(** The state of the derived dictionary of [m]: absent, or named after
    [m], a gauge, and holding the series of the topic of [m] only. *)
Definition derived_inv (m : metric lib) : Prop :=
  match derived_metric m with
  | None => True
  | Some d =>
      name d = (name (self m) ++ "_last_received")%string /\
      type d = "gauge" /\
      Dict.keys (store d) = [last_received_key m]
  end.

(** The dictionaries that a scrape goes through: every configured
    metric followed by its derived dictionary, if it has one. *)
Definition definitions_of (userdata : Dict.t (list (metric lib)))
  : list (mdict lib) :=
  flat_map
    (fun entry =>
       flat_map
         (fun m => self m :: match derived_metric m with
                             | Some d => [d]
                             | None => []
                             end)
         (snd entry))
    userdata.

Definition of_type (t : string) (defs : list (mdict lib)) : list (mdict lib) :=
  filter (fun d => type d =? t) defs.

(** The dictionary [types] of [_get_metrics_by_type]. *)
Definition by_type (g c h s : list (mdict lib)) : Dict.t (list (mdict lib)) :=
  [("gauge", g); ("counter", c); ("histogram", h); ("summary", s)].

(** The outcomes of [update_metric]. *)
Inductive update_outcome (msg : message) (m : metric lib) (w : world)
  : result unit -> metric lib -> world -> Prop :=
| rules_raise e :
    relabel m (initial_labels m msg) = Raise e ->
    update_outcome msg m w (Raise e) m w
| rules_reject labels :
    relabel m (initial_labels m msg) = Ok (false, labels) ->
    update_outcome msg m w (Ok tt) m w
| not_a_number labels v t :
    relabel m (initial_labels m msg) = Ok (true, labels) ->
    Dict.get labels "__value__" = Some v ->
    float_of_string (Str.replace v "," ".") = None ->
    update_outcome msg m w (Ok tt) m
      (World (log w ++ [ValueNotNumber v (name (self m)) t]) (ticks w))
| stored labels v x names vals key :
    relabel m (initial_labels m msg) = Ok (true, labels) ->
    Dict.get labels "__value__" = Some v ->
    float_of_string (Str.replace v "," ".") = Some x ->
    update_outcome msg m w (Ok tt)
      (Metric (set_series key (Series (name (self m)) vals (PFloat x))
                 (set_names (name (self m)) names (self m)))
              (topic m) (label_configs m)
              (Some (set_series (last_received_key m)
                       (Series (name (derived_setdefault m)) [PStr (topic m)]
                               (PInt (clock_ms (ticks w))))
                       (set_names (name (derived_setdefault m)) ["topic"]
                                  (derived_setdefault m)))))
      (type_checked (derived_setdefault m)
         (type_checked (self m) (World (log w) (1 + ticks w)))).

(** What an update keeps of a metric, whatever its outcome. *)
Definition kept (m m' : metric lib) : Prop :=
  topic m' = topic m /\
  label_configs m' = label_configs m /\
  name (self m') = name (self m) /\
  help (self m') = help (self m) /\
  type (self m') = type (self m) /\
  buckets (self m') = buckets (self m) /\
  (exists added,
     Dict.keys (store (self m')) = Dict.keys (store (self m)) ++ added /\
     List.length added <= 1) /\
  (forall d, derived_metric m = Some d ->
             exists d', derived_metric m' = Some d' /\
                        name d' = name d /\ help d' = help d /\
                        type d' = type d).

(** A dictionary whose type is none of [METRIC_TYPES]. *)
Definition unknown_type (d : mdict lib) : bool :=
  negb (existsb (String.eqb (type d)) METRIC_TYPES).

End Vocabulary.

(** The items of a pattern made of the literal characters of [p]. *)
Definition lits (p : string) : list Re.item :=
  map (fun c => Re.Atom (Re.Chr c) Re.Once) (list_ascii_of_string p).

(** No character of [s] is [c]. *)
Definition without (c : ascii) (s : string) : Prop :=
  Forall (fun c' => c' <> c) (list_ascii_of_string s).

(** * Properties *)

(** ** Dictionaries *)

Lemma get_setitem_same {V} (d : Dict.t V) k v :
  Dict.get (Dict.setitem d k v) k = Some v.
Proof.
  induction d as [|[k' v'] d IH]; simpl.
  - now rewrite String.eqb_refl.
  - destruct (k' =? k) eqn:E; simpl; rewrite E; auto.
Qed.

Lemma get_setitem_other {V} (d : Dict.t V) k k' v :
  k <> k' -> Dict.get (Dict.setitem d k v) k' = Dict.get d k'.
Proof.
  intros Hne. induction d as [|[k0 v0] d IH]; simpl.
  - destruct (String.eqb_spec k k'); congruence.
  - destruct (String.eqb_spec k0 k); simpl.
    + subst k0. destruct (String.eqb_spec k k'); congruence.
    + now rewrite IH.
Qed.

Lemma get_setitem_present {V} (d : Dict.t V) k k' v :
  Dict.get d k' <> None -> Dict.get (Dict.setitem d k v) k' <> None.
Proof.
  destruct (String.eqb_spec k k') as [->|Hne].
  - rewrite get_setitem_same. discriminate.
  - now rewrite get_setitem_other.
Qed.

Lemma keys_setitem_present {V} (d : Dict.t V) k v :
  Dict.get d k <> None -> Dict.keys (Dict.setitem d k v) = Dict.keys d.
Proof.
  induction d as [|[k' v'] d IH]; simpl; [congruence|].
  destruct (String.eqb_spec k' k); simpl; intros H; [reflexivity|].
  f_equal. now apply IH.
Qed.

Lemma keys_setitem_absent {V} (d : Dict.t V) k v :
  Dict.get d k = None -> Dict.keys (Dict.setitem d k v) = Dict.keys d ++ [k].
Proof.
  induction d as [|[k' v'] d IH]; simpl; [reflexivity|].
  destruct (String.eqb_spec k' k); simpl; intros H; [discriminate|].
  f_equal. now apply IH.
Qed.

Lemma get_none_not_in {V} (d : Dict.t V) k :
  Dict.get d k = None <-> ~ In k (Dict.keys d).
Proof.
  induction d as [|[k' v'] d IH]; simpl.
  - tauto.
  - destruct (String.eqb_spec k' k).
    + split; [discriminate|]. intros H. exfalso. apply H. now left.
    + rewrite IH. tauto.
Qed.

Lemma wf_setitem {V} (d : Dict.t V) k v :
  Dict.wf d -> Dict.wf (Dict.setitem d k v).
Proof.
  unfold Dict.wf. intros Hwf.
  destruct (Dict.get d k) eqn:E.
  - rewrite keys_setitem_present; [assumption|congruence].
  - rewrite keys_setitem_absent by assumption.
    apply get_none_not_in in E.
    apply NoDup_rev in Hwf.
    rewrite <- (rev_involutive (Dict.keys d ++ [k])).
    apply NoDup_rev. rewrite rev_app_distr. simpl.
    constructor; [|assumption]. now rewrite <- in_rev.
Qed.

Lemma in_keys_delitem {V} (d : Dict.t V) k k' :
  In k' (Dict.keys (Dict.delitem d k)) -> In k' (Dict.keys d).
Proof.
  induction d as [|[k0 v0] d IH]; simpl; [tauto|].
  destruct (k0 =? k); simpl; tauto.
Qed.

Lemma wf_delitem {V} (d : Dict.t V) k :
  Dict.wf d -> Dict.wf (Dict.delitem d k).
Proof.
  unfold Dict.wf. induction d as [|[k0 v0] d IH]; simpl; [auto|].
  intros H. inversion H as [|? ? Hnin Hnd]; subst.
  destruct (k0 =? k); [assumption|]. simpl. constructor; [|auto].
  intros Hin. apply Hnin. eapply in_keys_delitem; eassumption.
Qed.

Lemma get_delitem_other {V} (d : Dict.t V) k k' :
  k <> k' -> Dict.get (Dict.delitem d k) k' = Dict.get d k'.
Proof.
  intros Hne. induction d as [|[k0 v0] d IH]; simpl; [reflexivity|].
  destruct (String.eqb_spec k0 k); simpl.
  - subst. destruct (String.eqb_spec k k'); congruence.
  - now rewrite IH.
Qed.

Lemma in_delitem {V} (d : Dict.t V) k (p : string * V) :
  In p (Dict.delitem d k) -> In p d.
Proof.
  induction d as [|[k0 v0] d IH]; simpl; [tauto|].
  destruct (k0 =? k); simpl; tauto.
Qed.

(** With each key held once, what [del] leaves has the other keys only. *)
Lemma in_delitem_wf {V} (d : Dict.t V) k (p : string * V) :
  Dict.wf d -> In p (Dict.delitem d k) -> fst p <> k.
Proof.
  unfold Dict.wf. induction d as [|[k0 v0] d IH]; simpl; [tauto|].
  intros H. inversion H as [|? ? Hnin Hnd]; subst.
  destruct (String.eqb_spec k0 k).
  - subst. intros Hin Heq. apply Hnin. rewrite <- Heq.
    now apply in_map.
  - simpl. intros [<-|Hin]; [assumption|]. now apply IH.
Qed.

(** ** The order on keys *)

Lemma ascii_compare_trans a b c o :
  Ascii.compare a b = o -> Ascii.compare b c = o -> Ascii.compare a c = o.
Proof.
  unfold Ascii.compare. intros H1 H2. destruct o.
  - apply N.compare_eq_iff in H1, H2. apply N.compare_eq_iff. congruence.
  - exact (N.lt_trans _ _ _ H1 H2).
  - apply N.compare_gt_iff in H1, H2. apply N.compare_gt_iff.
    exact (N.lt_trans _ _ _ H2 H1).
Qed.

Lemma string_compare_lt_trans s1 : forall s2 s3,
  String.compare s1 s2 = Lt -> String.compare s2 s3 = Lt ->
  String.compare s1 s3 = Lt.
Proof.
  induction s1 as [|a s1 IH]; intros [|b s2] [|c s3]; simpl;
    try discriminate; auto.
  destruct (Ascii.compare a b) eqn:Eab; try discriminate;
    destruct (Ascii.compare b c) eqn:Ebc; try discriminate; intros H1 H2.
  - apply Ascii.compare_eq_iff in Eab, Ebc. subst.
    replace (Ascii.compare c c) with Eq
      by (symmetry; unfold Ascii.compare; apply N.compare_refl).
    eauto.
  - apply Ascii.compare_eq_iff in Eab. subst. now rewrite Ebc.
  - apply Ascii.compare_eq_iff in Ebc. subst. now rewrite Eab.
  - now rewrite (ascii_compare_trans _ _ _ Eab Ebc).
Qed.

Lemma string_leb_trans s1 s2 s3 :
  String.leb s1 s2 = true -> String.leb s2 s3 = true -> String.leb s1 s3 = true.
Proof.
  unfold String.leb.
  destruct (String.compare s1 s2) eqn:E12; try discriminate;
    destruct (String.compare s2 s3) eqn:E23; try discriminate; intros _ _.
  - apply String.compare_eq_iff in E12. subst s2. now rewrite E23.
  - apply String.compare_eq_iff in E12. subst s2. now rewrite E23.
  - apply String.compare_eq_iff in E23. subst s3. now rewrite E12.
  - now rewrite (string_compare_lt_trans _ _ _ E12 E23).
Qed.

(** ** Sorting the labels *)

Lemma insert_by_key_perm {V} (x : string * V) l :
  Permutation (insert_by_key x l) (x :: l).
Proof.
  induction l as [|y l IH]; simpl; [reflexivity|].
  destruct (String.leb (fst x) (fst y)); [reflexivity|].
  rewrite IH. apply perm_swap.
Qed.

Lemma sorted_tuple_list_perm {V} (source : Dict.t V) :
  Permutation (_get_sorted_tuple_list source) source.
Proof.
  induction source as [|x l IH]; simpl; [reflexivity|].
  rewrite insert_by_key_perm. now constructor.
Qed.

(** Two insertions of different keys commute. *)
Lemma insert_by_key_comm {V} (x y : string * V) l :
  fst x <> fst y ->
  insert_by_key x (insert_by_key y l) = insert_by_key y (insert_by_key x l).
Proof.
  assert (Hlt : forall (a b : string * V) l,
             String.leb (fst a) (fst b) = true -> fst a <> fst b ->
             insert_by_key a (insert_by_key b l)
             = insert_by_key b (insert_by_key a l)).
  { intros a b. induction l0 as [|z l0 IH]; intros Hab Hne.
    - simpl. rewrite Hab.
      destruct (String.leb (fst b) (fst a)) eqn:Hba; [|reflexivity].
      exfalso. apply Hne. now apply String.leb_antisym.
    - assert (Hba : String.leb (fst b) (fst a) = false).
      { destruct (String.leb (fst b) (fst a)) eqn:Hba; [|reflexivity].
        exfalso. apply Hne. now apply String.leb_antisym. }
      simpl. destruct (String.leb (fst b) (fst z)) eqn:Hbz.
      + rewrite (string_leb_trans _ _ _ Hab Hbz). simpl.
        now rewrite Hab, Hba, Hbz.
      + destruct (String.leb (fst a) (fst z)) eqn:Haz; simpl.
        * now rewrite Haz, Hba, Hbz.
        * rewrite Haz, Hbz. f_equal. now apply IH. }
  intros Hne.
  destruct (String.leb_total (fst x) (fst y)) as [H|H].
  - now apply Hlt.
  - symmetry. apply Hlt; [assumption|congruence].
Qed.

(** The sorted list depends on the content of the dictionary only, not
    on the order in which its keys were inserted. *)
Lemma sorted_tuple_list_order {V} (l1 l2 : Dict.t V) :
  Permutation l1 l2 -> Dict.wf l1 ->
  _get_sorted_tuple_list l1 = _get_sorted_tuple_list l2.
Proof.
  unfold Dict.wf, Dict.keys.
  induction 1 as [|x l l' Hp IH|x y l|l l' l'' Hp1 IH1 Hp2 IH2]; intros Hwf.
  - reflexivity.
  - simpl. f_equal. apply IH. now inversion Hwf.
  - simpl. apply insert_by_key_comm.
    simpl in Hwf. inversion Hwf as [|? ? Hnin _]; subst.
    intros Heq. apply Hnin. now left.
  - rewrite IH1 by assumption. apply IH2.
    eapply Permutation_NoDup; [|eassumption]. now apply Permutation_map.
Qed.

(** ** The metric store *)

Section StoreProperties.

Context {lib : PyLib}.

Lemma ticks_type_checked (m : mdict lib) w : ticks (type_checked m w) = ticks w.
Proof. unfold type_checked. now destruct (existsb _ _). Qed.

(** What [_export_to_prometheus] does when nothing raises. *)
Lemma export_ok name' (labels : Dict.t (pyval lib)) m w v names vals key :
  Dict.get labels "value" = Some v ->
  unzip_labels (_get_sorted_tuple_list (Dict.delitem labels "value"))
    = Ok (names, vals) ->
  series_key names vals = Ok key ->
  _export_to_prometheus name' labels m w
  = (Ok tt,
     set_series key (Series name' vals v) (set_names name' names m),
     type_checked m w).
Proof.
  intros Hv Hz Hk.
  unfold _export_to_prometheus, bind, get, lift, modify, ret, logging,
    type_checked, Dict.getitem.
  destruct (existsb (String.eqb (type m)) METRIC_TYPES);
    rewrite Hv, Hz, Hk; reflexivity.
Qed.

Lemma series_key_of_ok (labels : Dict.t (pyval lib)) names vals key :
  unzip_labels (_get_sorted_tuple_list (Dict.delitem labels "value"))
    = Ok (names, vals) ->
  series_key names vals = Ok key ->
  series_key_of labels = Ok key.
Proof. unfold series_key_of. intros -> H. exact H. Qed.

(** An export that returns has stored its entry under [series_key_of]. *)
Lemma export_returns name' (labels : Dict.t (pyval lib)) m w m' w' :
  _export_to_prometheus name' labels m w = (Ok tt, m', w') ->
  exists v names vals key,
    Dict.get labels "value" = Some v /\
    unzip_labels (_get_sorted_tuple_list (Dict.delitem labels "value"))
      = Ok (names, vals) /\
    series_key names vals = Ok key /\
    series_key_of labels = Ok key /\
    m' = set_series key (Series name' vals v) (set_names name' names m) /\
    w' = type_checked m w.
Proof.
  unfold _export_to_prometheus, bind, get, lift, modify, ret, logging,
    type_checked, Dict.getitem, series_key_of, rbind.
  destruct (existsb (String.eqb (type m)) METRIC_TYPES);
    (destruct (Dict.get labels "value") as [v|]; [|discriminate]);
    (destruct (unzip_labels _) as [[names vals]|e]; [|discriminate]);
    cbv beta iota;
    (destruct (series_key names vals) as [key|e] eqn:Hk; [|discriminate]);
    intros H; inversion H; subst;
    exists v, names, vals, key; rewrite ?Hk; repeat split; reflexivity.
Qed.

Lemma store_set_series key e (m : mdict lib) :
  store (set_series key e m) = Dict.setitem (store m) key e.
Proof. reflexivity. Qed.

Lemma store_set_names name' names (m : mdict lib) :
  store (set_names name' names m) = store m.
Proof. reflexivity. Qed.

(** *** Label order *)

(** C2. Two label dictionaries with the same items, inserted in
    different orders, have the same series key; exported one after the
    other to a metric, the second replaces the entry that the first
    stored and adds none.  The two values may differ. *)
Theorem same_labels_same_series
  (name' : string) (labels1 labels2 : Dict.t (pyval lib))
  (m m1 : mdict lib) (w w1 : world) (v2 : pyval lib) :
  Dict.wf labels1 ->
  Permutation (Dict.delitem labels1 "value") (Dict.delitem labels2 "value") ->
  Dict.get labels2 "value" = Some v2 ->
  _export_to_prometheus name' labels1 m w = (Ok tt, m1, w1) ->
  series_key_of labels1 = series_key_of labels2 /\
  exists key e1 m2 w2,
    series_key_of labels2 = Ok key /\
    Dict.get (store m1) key = Some e1 /\
    _export_to_prometheus name' labels2 m1 w1 = (Ok tt, m2, w2) /\
    Dict.keys (store m2) = Dict.keys (store m1) /\
    Dict.get (store m2) key = Some (Series name' (label_values e1) v2).
Proof.
  intros Hwf Hperm Hv2 Hex1.
  apply export_returns in Hex1
    as (v1 & names & vals & key & Hv1 & Hz & Hk & Hkey & -> & ->).
  assert (Hsort : _get_sorted_tuple_list (Dict.delitem labels1 "value")
                  = _get_sorted_tuple_list (Dict.delitem labels2 "value")).
  { apply sorted_tuple_list_order; [assumption|]. now apply wf_delitem. }
  assert (Hkey2 : series_key_of labels2 = Ok key).
  { unfold series_key_of. rewrite <- Hsort. exact Hkey. }
  split; [congruence|].
  exists key, (Series name' vals v1).
  eexists. eexists.
  split; [exact Hkey2|].
  rewrite store_set_series. rewrite get_setitem_same.
  split; [reflexivity|].
  split.
  - apply export_ok; [exact Hv2| |exact Hk]. now rewrite <- Hsort.
  - rewrite !store_set_series, !store_set_names.
    split.
    + apply keys_setitem_present. rewrite get_setitem_same. discriminate.
    + apply get_setitem_same.
Qed.

End StoreProperties.

(** ** Relabeling *)

Section RelabelProperties.

Context {lib : PyLib}.

(** The rules after a prefix run on the labels the prefix leaves, when
    the prefix accepts; a prefix that rejects or raises ends the call. *)
Lemma apply_label_config_app (pre rest : list label_config) : forall labels,
  _apply_label_config labels (pre ++ rest)
  = (r <- _apply_label_config labels pre ;;
     if fst r then _apply_label_config (snd r) rest else Ok r)%res.
Proof.
  induction pre as [|lc pre IH]; intros labels; simpl; [reflexivity|].
  destruct (action lc =? "replace").
  - destruct (_label_config_rename lc labels); simpl; auto.
  - destruct (_label_config_match lc labels) as [[|]|]; simpl; auto.
Qed.

Lemma apply_label_config_after (pre : list label_config) lc rest labels labels' :
  _apply_label_config labels pre = Ok (true, labels') ->
  _apply_label_config labels (pre ++ lc :: rest)
  = _apply_label_config labels' (lc :: rest).
Proof. intros H. rewrite apply_label_config_app, H. reflexivity. Qed.

(** A rule that is not a [replace] is decided by [_label_config_match]. *)
Lemma match_verdict lc labels s b :
  joined_source lc labels = Ok s ->
  re_match (regex lc) s = Ok b ->
  _label_config_match lc labels
  = Ok (if action lc =? "keep" then b
        else if action lc =? "drop" then negb b else false).
Proof.
  intros Hs Hb. unfold _label_config_match. rewrite Hs. simpl. rewrite Hb. simpl.
  destruct (action lc =? "keep"); [reflexivity|].
  destruct (action lc =? "drop"); reflexivity.
Qed.

(** A message that the rules reject leaves the metric, the log and the
    clock as they were. *)
Lemma update_metric_rejected (msg : message) (m : metric lib) w labels' :
  relabel m (initial_labels m msg) = Ok (false, labels') ->
  update_metric msg m w = (Ok tt, m, w).
Proof.
  intros H. unfold update_metric, bind, get, lift. rewrite H. reflexivity.
Qed.

(** [_update_metrics] on one metric is the body of its loop. *)
Lemma update_metrics_one (msg : message) (m m' : metric lib) w w' :
  update_metric msg m w = (Ok tt, m', w') ->
  _update_metrics msg [m] w = (Ok tt, [m'], w').
Proof. intros H. unfold _update_metrics. simpl. now rewrite H. Qed.

(** The metrics of a list are updated one after the other, each from
    the world that the one before it has left. *)
Lemma update_metrics_app (msg : message) (before after : list (metric lib)) :
  forall w before' w1,
  _update_metrics msg before w = (Ok tt, before', w1) ->
  _update_metrics msg (before ++ after) w
  = (let '(r, after', w2) := _update_metrics msg after w1 in
     (r, before' ++ after', w2)).
Proof.
  unfold _update_metrics.
  induction before as [|m before IH]; intros w before' w1; simpl.
  - intros [= <- <-].
    now destruct (for_each (update_metric msg) after w) as [[? ?] ?].
  - destruct (update_metric msg m w) as [[[[]|e] m'] w'].
    + destruct (for_each (update_metric msg) before w') as [[r bs] w''] eqn:E.
      intros H. inversion H; subst. rewrite (IH _ _ _ E).
      now destruct (for_each (update_metric msg) after _) as [[? ?] ?].
    + discriminate.
Qed.

(** Where the rule list of [m] is [pre ++ lc :: rest] and [pre] has
    accepted, leaving [labels'], the rest of the pipeline runs on them. *)
Lemma relabel_reaches (m : metric lib) msg pre lc rest labels' :
  label_configs m = Some (pre ++ lc :: rest) ->
  _apply_label_config (initial_labels m msg) pre = Ok (true, labels') ->
  relabel m (initial_labels m msg) = _apply_label_config labels' (lc :: rest).
Proof.
  intros Hcfg Hpre. unfold relabel. rewrite Hcfg.
  now apply apply_label_config_after.
Qed.

(** C3. A [keep] rule whose joined source does not match its regex, and
    a [drop] rule whose joined source does, end the pipeline with a
    rejection whatever the remaining rules are, and the metric, the log
    and the clock stay as they were; a [keep] rule that matches and a
    [drop] rule that does not hand the same labels to the next rule. *)
Theorem keep_drop_rule
  (m : metric lib) (msg : message) (w : world)
  (pre : list label_config) (lc : label_config) (rest : list label_config)
  (labels' : Dict.t string) (source : string) (matched : bool) :
  label_configs m = Some (pre ++ lc :: rest) ->
  _apply_label_config (initial_labels m msg) pre = Ok (true, labels') ->
  joined_source lc labels' = Ok source ->
  re_match (regex lc) source = Ok matched ->
  (action lc = "keep" /\ matched = false \/ action lc = "drop" /\ matched = true ->
     _apply_label_config labels' (lc :: rest) = Ok (false, labels') /\
     relabel m (initial_labels m msg) = Ok (false, labels') /\
     update_metric msg m w = (Ok tt, m, w) /\
     _update_metrics msg [m] w = (Ok tt, [m], w)) /\
  (action lc = "keep" /\ matched = true \/ action lc = "drop" /\ matched = false ->
     _apply_label_config labels' (lc :: rest) = _apply_label_config labels' rest /\
     relabel m (initial_labels m msg) = _apply_label_config labels' rest).
Proof.
  intros Hcfg Hpre Hs Hb.
  pose proof (relabel_reaches m msg pre lc rest Hcfg Hpre) as Hrel.
  pose proof (match_verdict lc labels' Hs Hb) as Hv.
  split.
  - intros Hcase.
    assert (Hstep : _apply_label_config labels' (lc :: rest) = Ok (false, labels')).
    { simpl. rewrite Hv.
      destruct Hcase as [[-> ->]|[-> ->]]; reflexivity. }
    split; [exact Hstep|].
    split; [congruence|].
    assert (Hup : update_metric msg m w = (Ok tt, m, w))
      by (apply update_metric_rejected with (labels' := labels'); congruence).
    split; [exact Hup|now apply update_metrics_one].
  - intros Hcase.
    assert (Hstep : _apply_label_config labels' (lc :: rest)
                    = _apply_label_config labels' rest).
    { simpl. rewrite Hv.
      destruct Hcase as [[-> ->]|[-> ->]]; reflexivity. }
    split; [exact Hstep|congruence].
Qed.

(** C6 (as amended). A rule whose action is none of [replace], [keep]
    and [drop], whose source labels are all in the label set and whose
    regex compiles, ends the pipeline with a rejection whatever the
    remaining rules are, and the metric, the log and the clock stay as
    they were. *)
Theorem unsupported_action_rejects
  (m : metric lib) (msg : message) (w : world)
  (pre : list label_config) (lc : label_config) (rest : list label_config)
  (labels' : Dict.t string) (source : string) (matched : bool) :
  label_configs m = Some (pre ++ lc :: rest) ->
  _apply_label_config (initial_labels m msg) pre = Ok (true, labels') ->
  action lc <> "replace" -> action lc <> "keep" -> action lc <> "drop" ->
  joined_source lc labels' = Ok source ->
  re_match (regex lc) source = Ok matched ->
  _apply_label_config labels' (lc :: rest) = Ok (false, labels') /\
  relabel m (initial_labels m msg) = Ok (false, labels') /\
  update_metric msg m w = (Ok tt, m, w) /\
  _update_metrics msg [m] w = (Ok tt, [m], w).
Proof.
  intros Hcfg Hpre Hr Hk Hd Hs Hb.
  pose proof (relabel_reaches m msg pre lc rest Hcfg Hpre) as Hrel.
  assert (Hstep : _apply_label_config labels' (lc :: rest) = Ok (false, labels')).
  { simpl. rewrite (match_verdict lc labels' Hs Hb).
    apply String.eqb_neq in Hr, Hk, Hd. rewrite Hr, Hk, Hd. reflexivity. }
  split; [exact Hstep|].
  split; [congruence|].
  assert (Hup : update_metric msg m w = (Ok tt, m, w))
    by (apply update_metric_rejected with (labels' := labels'); congruence).
  split; [exact Hup|now apply update_metrics_one].
Qed.

(** A [replace] rule never yields a rejection by itself. *)
Lemma replace_never_rejects lc labels labels' :
  action lc = "replace" ->
  _apply_label_config labels [lc] <> Ok (false, labels').
Proof.
  intros Ha. simpl. rewrite Ha. simpl.
  destruct (_label_config_rename lc labels); simpl; discriminate.
Qed.

(** C5 (as amended). A [replace] rule never yields a rejection.  When
    its source labels are all in the label set and its regex compiles,
    the pipeline goes on to the next rule: with the labels untouched if
    the joined source does not match the regex, and with [target_label]
    set to the substitution, every other label untouched, if it matches. *)
Theorem replace_rule
  (lc : label_config) (rest : list label_config)
  (labels : Dict.t string) (source : string) (matched : bool) :
  action lc = "replace" ->
  joined_source lc labels = Ok source ->
  re_match (regex lc) source = Ok matched ->
  (forall labels', _apply_label_config labels [lc] <> Ok (false, labels')) /\
  (matched = false ->
     _label_config_rename lc labels = Ok labels /\
     _apply_label_config labels (lc :: rest) = _apply_label_config labels rest) /\
  (matched = true ->
     forall target result,
       target_label lc = Some target ->
       re_sub (regex lc) (replacement lc) source = Ok result ->
       _label_config_rename lc labels = Ok (Dict.setitem labels target result) /\
       _apply_label_config labels (lc :: rest)
       = _apply_label_config (Dict.setitem labels target result) rest /\
       Dict.get (Dict.setitem labels target result) target = Some result /\
       forall k, k <> target ->
         Dict.get (Dict.setitem labels target result) k = Dict.get labels k).
Proof.
  intros Ha Hs Hb.
  split; [intros labels'; now apply replace_never_rejects|].
  split.
  - intros ->.
    assert (Hren : _label_config_rename lc labels = Ok labels).
    { unfold _label_config_rename. rewrite Hs. simpl. rewrite Hb. reflexivity. }
    split; [exact Hren|]. simpl. rewrite Ha, Hren. reflexivity.
  - intros -> target result Ht Hsub.
    assert (Hren : _label_config_rename lc labels
                   = Ok (Dict.setitem labels target result)).
    { unfold _label_config_rename. rewrite Hs. simpl. rewrite Hb. simpl.
      rewrite Hsub. simpl. rewrite Ht. reflexivity. }
    split; [exact Hren|].
    split; [simpl; rewrite Ha, Hren; reflexivity|].
    split; [apply get_setitem_same|].
    intros k Hk. apply get_setitem_other. congruence.
Qed.

End RelabelProperties.

(** ** Message handling *)

Lemma in_setitem {V} (d : Dict.t V) k v (p : string * V) :
  In p (Dict.setitem d k v) -> p = (k, v) \/ In p d.
Proof.
  induction d as [|[k0 v0] d IH]; simpl.
  - intros [<-|[]]. now left.
  - destruct (String.eqb_spec k0 k); simpl.
    + subst. intros [<-|H]; auto.
    + intros [<-|H]; auto. destruct (IH H); auto.
Qed.

Lemma get_in {V} (d : Dict.t V) k v : Dict.get d k = Some v -> In (k, v) d.
Proof.
  induction d as [|[k0 v0] d IH]; simpl; [discriminate|].
  destruct (String.eqb_spec k0 k).
  - intros [= <-]. subst. now left.
  - auto.
Qed.

Lemma get_map {V W} (f : V -> W) (d : Dict.t V) k :
  Dict.get (map (fun kv => (fst kv, f (snd kv))) d) k
  = option_map f (Dict.get d k).
Proof.
  induction d as [|[k0 v0] d IH]; simpl; [reflexivity|].
  destruct (k0 =? k); auto.
Qed.

Lemma keys_map {V W} (f : V -> W) (d : Dict.t V) :
  Dict.keys (map (fun kv => (fst kv, f (snd kv))) d) = Dict.keys d.
Proof.
  unfold Dict.keys. rewrite map_map. reflexivity.
Qed.

Lemma get_filter_keys {V} (p : string -> bool) (d : Dict.t V) k :
  Dict.get (filter (fun kv => p (fst kv)) d) k
  = if p k then Dict.get d k else None.
Proof.
  induction d as [|[k0 v0] d IH]; simpl.
  - now destruct (p k).
  - destruct (p k0) eqn:E0; simpl.
    + destruct (String.eqb_spec k0 k); [subst; now rewrite E0|exact IH].
    + destruct (String.eqb_spec k0 k); [subst; now rewrite IH, E0|exact IH].
Qed.

Lemma wf_filter {V} (f : string * V -> bool) (d : Dict.t V) :
  Dict.wf d -> Dict.wf (filter f d).
Proof.
  unfold Dict.wf, Dict.keys.
  induction d as [|kv d IH]; simpl; [auto|].
  intros H. inversion H as [|? ? Hnin Hnd]; subst.
  destruct (f kv); simpl; [|auto].
  constructor; [|auto].
  intros Hin. apply Hnin. apply in_map_iff in Hin as (q & Hq & Hin).
  apply filter_In in Hin as [Hin _]. rewrite <- Hq. now apply in_map.
Qed.

Section UpdateProperties.

Context {lib : PyLib}.

(** *** What the rules keep *)

Lemma rename_keeps lc (labels labels' : Dict.t string) :
  _label_config_rename lc labels = Ok labels' ->
  (Dict.wf labels -> Dict.wf labels') /\
  (forall k, Dict.get labels k <> None -> Dict.get labels' k <> None).
Proof.
  unfold _label_config_rename.
  destruct (joined_source lc labels) as [s|]; simpl; [|discriminate].
  destruct (re_match (regex lc) s) as [[|]|]; simpl; try discriminate.
  - destruct (re_sub (regex lc) (replacement lc) s) as [r|]; simpl;
      [|discriminate].
    destruct (target_label lc) as [t|]; [|discriminate].
    intros [= <-]. split.
    + apply wf_setitem.
    + intros k. apply get_setitem_present.
  - intros [= <-]. auto.
Qed.

Lemma apply_label_config_keeps (lcs : list label_config) :
  forall (labels labels' : Dict.t string) verdict,
  _apply_label_config labels lcs = Ok (verdict, labels') ->
  (Dict.wf labels -> Dict.wf labels') /\
  (forall k, Dict.get labels k <> None -> Dict.get labels' k <> None).
Proof.
  induction lcs as [|lc lcs IH]; intros labels labels' verdict; simpl.
  - intros [= <- <-]. auto.
  - destruct (action lc =? "replace").
    + destruct (_label_config_rename lc labels) as [l1|] eqn:E; simpl;
        [|discriminate].
      intros H. apply rename_keeps in E as [Hwf Hk].
      apply IH in H as [Hwf' Hk']. split; auto.
    + destruct (_label_config_match lc labels) as [[|]|]; simpl;
        try discriminate.
      * apply IH.
      * intros [= <- <-]. auto.
Qed.

Lemma wf_initial_labels (m : metric lib) msg : Dict.wf (initial_labels m msg).
Proof.
  unfold Dict.wf, initial_labels. simpl.
  repeat constructor; simpl; intuition discriminate.
Qed.

Lemma relabel_keeps (m : metric lib) msg verdict labels :
  relabel m (initial_labels m msg) = Ok (verdict, labels) ->
  Dict.wf labels /\
  Dict.get labels "__topic__" <> None /\
  Dict.get labels "__msg_topic__" <> None /\
  Dict.get labels "__value__" <> None.
Proof.
  unfold relabel. intros H.
  assert (Hk : Dict.wf labels /\
               forall k, Dict.get (initial_labels m msg) k <> None ->
                         Dict.get labels k <> None).
  { destruct (label_configs m) as [lcs|].
    - apply apply_label_config_keeps in H as [Hwf Hk].
      split; [apply Hwf, wf_initial_labels|exact Hk].
    - inversion H; subst. split; [apply wf_initial_labels|auto]. }
  destruct Hk as [Hwf Hk].
  repeat split; try assumption; apply Hk; simpl; discriminate.
Qed.

(** *** Labels ready for the store *)

Lemma traverse_str_item (vals : list (pyval lib)) :
  (forall u, In u vals -> exists s, u = PStr s) ->
  exists ss, traverse str_item vals = Ok ss.
Proof.
  induction vals as [|u vals IH]; intros H; simpl.
  - now exists [].
  - destruct (H u (or_introl eq_refl)) as [s ->].
    destruct IH as [ss ->]; [intros; apply H; now right|].
    simpl. now eexists.
Qed.

Lemma exportable_key (labels : Dict.t (pyval lib)) v :
  exportable labels v ->
  exists names vals key,
    unzip_labels (_get_sorted_tuple_list (Dict.delitem labels "value"))
      = Ok (names, vals) /\
    series_key names vals = Ok key.
Proof.
  intros (Hwf & Hv & Ht & Hstr).
  set (rest := Dict.delitem labels "value").
  pose proof (sorted_tuple_list_perm rest) as Hperm.
  destruct (Dict.get labels "topic") as [t|] eqn:Etopic; [|congruence].
  assert (Hin : In ("topic", t) (_get_sorted_tuple_list rest)).
  { eapply Permutation_in; [symmetry; exact Hperm|].
    apply get_in. unfold rest. rewrite get_delitem_other by discriminate.
    exact Etopic. }
  destruct (_get_sorted_tuple_list rest) as [|p ps] eqn:Es; [destruct Hin|].
  assert (Hall : forall u, In u (map snd (p :: ps)) -> exists s, u = PStr s).
  { intros u Hu. apply in_map_iff in Hu as ([k u'] & <- & Hu).
    apply (Permutation_in _ Hperm) in Hu.
    apply (Hstr k u').
    - eapply in_delitem; exact Hu.
    - exact (@in_delitem_wf _ labels "value" (k, u') Hwf Hu). }
  destruct (traverse_str_item _ Hall) as [ss Hss].
  exists (map fst (p :: ps)), (map snd (p :: ps)).
  eexists. split; [reflexivity|].
  unfold series_key. rewrite Hss. reflexivity.
Qed.

Lemma finalize_labels_exportable (labels : Dict.t string) x t :
  Dict.wf labels ->
  Dict.get labels "__topic__" = Some t ->
  Dict.get labels "__value__" <> None ->
  exists final,
    finalize_labels (with_float labels x) = Ok final /\
    exportable final (PFloat x) /\
    Dict.get final "topic" = Some (PStr t).
Proof.
  intros Hwf Ht Hv.
  set (strs := map (fun kv => (fst kv, PStr (snd kv))) labels).
  assert (Hwf0 : Dict.wf (with_float labels x)).
  { apply wf_setitem. unfold Dict.wf. fold strs.
    unfold strs. rewrite keys_map. exact Hwf. }
  unfold finalize_labels, Dict.getitem.
  assert (H0 : Dict.get (with_float labels x) "__value__" = Some (PFloat x))
    by apply get_setitem_same.
  rewrite H0. simpl.
  assert (H1 : Dict.get (Dict.setitem (with_float labels x) "value" (PFloat x))
                 "__topic__" = Some (PStr t)).
  { rewrite get_setitem_other by discriminate.
    unfold with_float. rewrite get_setitem_other by discriminate.
    rewrite get_map, Ht. reflexivity. }
  rewrite H1. simpl.
  eexists. split; [reflexivity|].
  set (l2 := Dict.setitem (Dict.setitem (with_float labels x) "value" (PFloat x))
               "topic" (PStr t)).
  assert (Htopic : Dict.get
            (filter (fun kv => negb (Str.startswith (fst kv) "__")) l2) "topic"
          = Some (PStr t)).
  { rewrite (get_filter_keys (fun k => negb (Str.startswith k "__"))).
    simpl. apply get_setitem_same. }
  split; [|exact Htopic].
  split; [apply wf_filter; unfold l2; now do 2 apply wf_setitem|].
  split.
  { rewrite (get_filter_keys (fun k => negb (Str.startswith k "__"))).
    simpl. unfold l2. rewrite get_setitem_other by discriminate.
    apply get_setitem_same. }
  split; [rewrite Htopic; discriminate|].
  intros k u Hin Hk.
  apply filter_In in Hin as [Hin Hkeep]. simpl in Hkeep.
  unfold l2 in Hin.
  apply in_setitem in Hin as [[= -> ->]|Hin]; [now eexists|].
  apply in_setitem in Hin as [[= -> ->]|Hin]; [congruence|].
  unfold with_float in Hin.
  apply in_setitem in Hin as [[= -> ->]|Hin]; [discriminate Hkeep|].
  apply in_map_iff in Hin as (q & [= <- <-] & _). now eexists.
Qed.

End UpdateProperties.

Section MessageProperties.

Context {lib : PyLib}.

(** The export of the labels of a derived metric. *)
Lemma export_derived name' (d : mdict lib) t now w :
  _export_to_prometheus name' [("topic", PStr t); ("value", PInt now)] d w
  = (Ok tt,
     set_series ("topic:" ++ t) (Series name' [PStr t] (PInt now))
                (set_names name' ["topic"] d),
     type_checked d w).
Proof. apply export_ok; reflexivity. Qed.

(** What [update_metric] does with a message that the rules accept and
    whose value is a number. *)
Lemma update_metric_accepted (msg : message) (m : metric lib) w labels v x :
  relabel m (initial_labels m msg) = Ok (true, labels) ->
  Dict.get labels "__value__" = Some v ->
  float_of_string (Str.replace v "," ".") = Some x ->
  exists final names vals key,
    finalize_labels (with_float labels x) = Ok final /\
    exportable final (PFloat x) /\
    series_key_of final = Ok key /\
    update_metric msg m w
    = (Ok tt,
       Metric (set_series key (Series (name (self m)) vals (PFloat x))
                 (set_names (name (self m)) names (self m)))
              (topic m) (label_configs m)
              (Some (set_series (last_received_key m)
                       (Series (name (derived_setdefault m)) [PStr (topic m)]
                               (PInt (clock_ms (ticks w))))
                       (set_names (name (derived_setdefault m)) ["topic"]
                                  (derived_setdefault m)))),
       type_checked (derived_setdefault m)
         (type_checked (self m) (World (log w) (1 + ticks w)))).
Proof.
  intros Hrel Hv Hx.
  destruct (relabel_keeps _ _ Hrel) as (Hwf & Htopic & _ & Hval).
  destruct (Dict.get labels "__topic__") as [t|] eqn:Et; [|congruence].
  destruct (finalize_labels_exportable x Hwf Et Hval)
    as (final & Hfin & Hexp & _).
  destruct (exportable_key Hexp) as (names & vals & key & Hz & Hk).
  exists final, names, vals, key.
  split; [exact Hfin|]. split; [exact Hexp|].
  split; [exact (series_key_of_ok _ Hz Hk)|].
  destruct Hexp as (_ & Hget & _).
  unfold update_metric, bind, get, lift, Dict.getitem.
  rewrite Hrel. cbv beta iota. cbn [negb].
  rewrite Hv, Hx, Hfin.
  unfold modify, time_ms, on_self, on_derived. cbv beta iota.
  unfold with_derived at 1. cbn [self].
  rewrite (export_ok _ _ _ _ Hget Hz Hk).
  rewrite export_derived.
  reflexivity.
Qed.

(** C4. When the rules have accepted the message and its [__value__],
    with commas turned into points, is not a number, the update returns
    without an exception after logging one record; the metric, with its
    store and its derived dictionary (or the absence of one), is what it
    was, and the clock has not been read. *)
Theorem non_numeric_value_rejected
  (msg : message) (m : metric lib) (w : world)
  (labels : Dict.t string) (v : string) :
  relabel m (initial_labels m msg) = Ok (true, labels) ->
  Dict.get labels "__value__" = Some v ->
  float_of_string (Str.replace v "," ".") = None ->
  exists t,
    Dict.get labels "__msg_topic__" = Some t /\
    update_metric msg m w
    = (Ok tt, m, World (log w ++ [ValueNotNumber v (name (self m)) t]) (ticks w)) /\
    _update_metrics msg [m] w
    = (Ok tt, [m], World (log w ++ [ValueNotNumber v (name (self m)) t]) (ticks w)).
Proof.
  intros Hrel Hv Hx.
  destruct (relabel_keeps _ _ Hrel) as (_ & _ & Hmsg & _).
  destruct (Dict.get labels "__msg_topic__") as [t|] eqn:Et; [|congruence].
  exists t. split; [reflexivity|].
  assert (Hbody : update_metric msg m w
            = (Ok tt, m,
               World (log w ++ [ValueNotNumber v (name (self m)) t]) (ticks w))).
  { unfold update_metric, bind, get, lift, Dict.getitem, logging.
    rewrite Hrel. cbv beta iota. cbn [negb].
    rewrite Hv, Hx. cbv beta iota. rewrite Et. reflexivity. }
  split; [exact Hbody|].
  unfold _update_metrics. simpl. rewrite Hbody. reflexivity.
Qed.

(** C7. An update that goes through leaves a derived dictionary named
    [<name>_last_received], of type [gauge], whose only series has the
    label [topic] with the configured topic pattern as its value and
    the clock reading of this update as its sample; the dictionary is
    created by the update when there was none, and kept otherwise.  The
    state reached allows the same at the next update. *)
Theorem last_received_upsert
  (msg : message) (m : metric lib) (w : world)
  (labels : Dict.t string) (v : string) (x : pyfloat) :
  derived_inv m ->
  relabel m (initial_labels m msg) = Ok (true, labels) ->
  Dict.get labels "__value__" = Some v ->
  float_of_string (Str.replace v "," ".") = Some x ->
  exists m' w' d',
    update_metric msg m w = (Ok tt, m', w') /\
    _update_metrics msg [m] w = (Ok tt, [m'], w') /\
    ticks w' = 1 + ticks w /\
    derived_metric m' = Some d' /\
    name d' = (name (self m) ++ "_last_received")%string /\
    type d' = "gauge" /\
    help d' = help (derived_setdefault m) /\
    label_names d' = Some ["topic"] /\
    store d'
    = [(("topic:" ++ topic m)%string,
        Series (name d') [PStr (topic m)] (PInt (clock_ms (ticks w))))] /\
    topic m' = topic m /\
    name (self m') = name (self m) /\
    derived_inv m'.
Proof.
  intros Hinv Hrel Hv Hx.
  destruct (update_metric_accepted msg m w Hrel Hv Hx)
    as (final & names & vals & key & _ & _ & _ & Hup).
  assert (Hd : name (derived_setdefault m)
               = (name (self m) ++ "_last_received")%string /\
               type (derived_setdefault m) = "gauge" /\
               (store (derived_setdefault m) = [] \/
                Dict.keys (store (derived_setdefault m)) = [last_received_key m])).
  { unfold derived_inv, derived_setdefault in *.
    destruct (derived_metric m) as [d|].
    - destruct Hinv as (Hn & Ht & Hk). auto.
    - simpl. auto. }
  destruct Hd as (Hn & Ht & Hst).
  assert (Hstore : forall e,
    Dict.setitem (store (derived_setdefault m)) (last_received_key m) e
    = [(last_received_key m, e)]).
  { intros e. destruct Hst as [->|Hk]; [reflexivity|].
    destruct (store (derived_setdefault m)) as [|[k0 e0] [|? ?]];
      try discriminate.
    injection Hk as ->. simpl. now rewrite String.eqb_refl. }
  eexists. eexists. eexists.
  split; [exact Hup|].
  split; [unfold _update_metrics; simpl; rewrite Hup; reflexivity|].
  split; [now rewrite !ticks_type_checked|].
  split; [reflexivity|].
  split; [exact Hn|].
  split; [exact Ht|].
  split; [reflexivity|].
  split; [reflexivity|].
  split; [rewrite store_set_series, store_set_names; apply Hstore|].
  split; [reflexivity|].
  split; [reflexivity|].
  unfold derived_inv. simpl.
  split; [exact Hn|]. split; [exact Ht|].
  rewrite store_set_series, store_set_names, Hstore. reflexivity.
Qed.

End MessageProperties.

(** ** Series keys that collide *)

Section KeyProperties.

Context {lib : PyLib}.

(** C10. The label sets [{a: 1, b: 2}] and [{ab: 12}] differ, both have
    the series key [ab:12], and exported one after the other to a metric
    they share one entry of the store: the second replaces what the
    first stored and adds no entry. *)
Theorem series_key_collision
  (name' : string) (m : mdict lib) (w : world) (v1 v2 : pyval lib) :
  let labels1 := [("a", PStr "1"); ("b", PStr "2"); ("value", v1)] in
  let labels2 := [("ab", PStr "12"); ("value", v2)] in
  ~ Permutation (Dict.delitem labels1 "value") (Dict.delitem labels2 "value") /\
  series_key_of labels1 = Ok "ab:12" /\
  series_key_of labels2 = Ok "ab:12" /\
  exists m1 w1 m2 w2,
    _export_to_prometheus name' labels1 m w = (Ok tt, m1, w1) /\
    Dict.get (store m1) "ab:12" = Some (Series name' [PStr "1"; PStr "2"] v1) /\
    _export_to_prometheus name' labels2 m1 w1 = (Ok tt, m2, w2) /\
    Dict.keys (store m2) = Dict.keys (store m1) /\
    Dict.get (store m2) "ab:12" = Some (Series name' [PStr "12"] v2).
Proof.
  intros labels1 labels2.
  split.
  { intros Hp. apply Permutation_length in Hp. discriminate Hp. }
  split; [reflexivity|]. split; [reflexivity|].
  do 4 eexists.
  split; [apply export_ok; reflexivity|].
  split; [rewrite store_set_series; apply get_setitem_same|].
  split; [apply export_ok; reflexivity|].
  rewrite !store_set_series, !store_set_names.
  split; [|apply get_setitem_same].
  apply keys_setitem_present. rewrite get_setitem_same. discriminate.
Qed.

End KeyProperties.

(** ** Topic patterns *)

(** *** The sample matcher *)

Lemma run_lits_false p r s :
  Re.run (lits p ++ r) false (p ++ s) = Re.run r false s.
Proof.
  unfold lits. induction p as [|c p IH]; [reflexivity|].
  cbn [list_ascii_of_string map app Re.run String.append Re.accepts].
  now rewrite Ascii.eqb_refl, IH.
Qed.

Lemma append_empty_r (s : string) : (s ++ "")%string = s.
Proof. induction s as [|c s IH]; cbn; [reflexivity|now rewrite IH]. Qed.

Lemma run_lits p r b s :
  p <> "" -> Re.run (lits p ++ r) b (p ++ s) = Re.run r false s.
Proof.
  destruct p as [|c p]; [congruence|]. intros _.
  unfold lits.
  cbn [list_ascii_of_string map app Re.run String.append Re.accepts].
  rewrite Ascii.eqb_refl. apply run_lits_false.
Qed.

Lemma run_lits_inv p : forall r b s,
  Re.run (lits p ++ r) b s = true ->
  exists s', s = (p ++ s')%string /\
             Re.run r (match p with "" => b | _ => false end) s' = true.
Proof.
  unfold lits. induction p as [|c p IH]; intros r b s H.
  - now exists s.
  - cbn [list_ascii_of_string map app Re.run Re.accepts] in H.
    destruct s as [|c' s]; [discriminate|].
    apply andb_prop in H as [Hc H].
    apply Ascii.eqb_eq in Hc. subst c'.
    apply IH in H as (s' & -> & H). exists s'. split; [reflexivity|].
    now destruct p.
Qed.

Lemma star_intro a k u : forall v,
  Forall (fun c => Re.accepts a c = true) (list_ascii_of_string u) ->
  k false v = true ->
  Re.star a k false (u ++ v) = true.
Proof.
  induction u as [|c u IH]; intros v Hu Hk.
  - destruct v; cbn; now rewrite Hk.
  - cbn in Hu. inversion Hu as [|? ? Hc Hu']; subst.
    cbn. rewrite Hc, (IH v Hu' Hk). apply orb_true_r.
Qed.

Lemma star_inv a k s : forall b,
  Re.star a k b s = true ->
  exists u v,
    s = (u ++ v)%string /\
    Forall (fun c => Re.accepts a c = true) (list_ascii_of_string u) /\
    k (match u with "" => b | _ => false end) v = true.
Proof.
  induction s as [|c s IH]; intros b H.
  - cbn in H. rewrite orb_false_r in H.
    exists "", "". repeat split; [constructor|exact H].
  - cbn in H. apply orb_prop in H as [H|H].
    + exists "", (String c s). repeat split; [constructor|exact H].
    + apply andb_prop in H as [Hc H].
      apply IH in H as (u & v & -> & Hu & Hk).
      exists (String c u), v. repeat split.
      * cbn. now constructor.
      * now destruct u.
Qed.

Lemma topic_plus_regex t :
  _topic_matches (lib := sample_lib) "sensors/+/temp" t
  = Ok (("sensors/+/temp" =? t)
        || Re.run (lits "sensors/"
                   ++ Re.Atom (Re.Class true ["/"%char]) Re.Plus :: lits "/temp")
                  true t).
Proof.
  unfold _topic_matches. destruct ("sensors/+/temp" =? t); reflexivity.
Qed.

Lemma topic_hash_regex t :
  _topic_matches (lib := sample_lib) "sensors/#" t
  = Ok (("sensors/#" =? t)
        || Re.run (lits "sensors" ++ [Re.Atom Re.AnyChar Re.Star; Re.Eol]) true t).
Proof.
  unfold _topic_matches. destruct ("sensors/#" =? t); reflexivity.
Qed.

Lemma accepts_not_slash c :
  Re.accepts (Re.Class true ["/"%char]) c = true <-> c <> "/"%char.
Proof.
  cbn. rewrite orb_false_r. destruct (Ascii.eqb_spec c "/"); cbn; split;
    congruence.
Qed.

(** C8. On the sample matcher: [sensors/+/temp] matches
    [sensors/kitchen/temp] and not [sensors/kitchen/sub/temp], and
    [sensors/#] matches [sensors/a/b/c].  The [+] stands for one level:
    the pattern matches [sensors/<level>/temp] for every non-empty level
    without a slash, and a topic that it matches starts with such a
    level between [sensors/] and [/temp].  The [/#] at the end takes
    whatever follows [sensors] on the line, and so any number of
    levels. *)
Theorem topic_wildcards :
  _topic_matches (lib := sample_lib) "sensors/+/temp" "sensors/kitchen/temp"
    = Ok true /\
  _topic_matches (lib := sample_lib) "sensors/+/temp" "sensors/kitchen/sub/temp"
    = Ok false /\
  _topic_matches (lib := sample_lib) "sensors/#" "sensors/a/b/c" = Ok true /\
  (forall level,
     level <> "" -> without "/" level ->
     _topic_matches (lib := sample_lib) "sensors/+/temp"
                    ("sensors/" ++ level ++ "/temp") = Ok true) /\
  (forall t,
     _topic_matches (lib := sample_lib) "sensors/+/temp" t = Ok true ->
     exists level rest,
       t = ("sensors/" ++ level ++ "/temp" ++ rest)%string /\
       level <> "" /\ without "/" level) /\
  (forall levels,
     without Re.newline levels ->
     _topic_matches (lib := sample_lib) "sensors/#" ("sensors" ++ levels)
     = Ok true).
Proof.
  split; [vm_compute; reflexivity|].
  split; [vm_compute; reflexivity|].
  split; [vm_compute; reflexivity|].
  split; [|split].
  - intros level Hne Hlevel. rewrite topic_plus_regex.
    rewrite run_lits by discriminate.
    destruct level as [|c level]; [congruence|].
    inversion Hlevel as [|? ? Hc Hrest]; subst.
    change (String c level ++ "/temp")%string
      with (String c (level ++ "/temp")).
    cbn [Re.run].
    rewrite (proj2 (accepts_not_slash c) Hc).
    rewrite star_intro; [now rewrite orb_true_r| |reflexivity].
    eapply Forall_impl; [|exact Hrest].
    intros a Ha. now apply accepts_not_slash.
  - intros t H0. rewrite topic_plus_regex in H0.
    assert (H : forall b, Ok b = Ok true -> b = true) by (intros; congruence).
    apply H in H0. clear H. apply orb_prop in H0 as [H|H].
    + apply String.eqb_eq in H. subst t.
      exists "+", "". repeat split; [discriminate|].
      repeat constructor. discriminate.
    + apply run_lits_inv in H as (s1 & -> & H).
      cbn [Re.run] in H. destruct s1 as [|c s1]; [discriminate|].
      apply andb_prop in H as [Hc H].
      apply star_inv in H as (u & v & -> & Hu & H).
      apply (run_lits_inv "/temp" []) in H as (rest & -> & _).
      exists (String c u), rest. repeat split; [discriminate|].
      constructor; [now apply accepts_not_slash|].
      eapply Forall_impl; [|exact Hu].
      intros a Ha. now apply accepts_not_slash.
  - intros levels Hlevels. rewrite topic_hash_regex.
    f_equal. apply orb_true_iff. right.
    rewrite run_lits by discriminate.
    cbn [Re.run].
    rewrite <- (append_empty_r levels).
    apply star_intro; [|reflexivity].
    eapply Forall_impl; [|exact Hlevels].
    intros a Ha. unfold Re.accepts.
    destruct (Ascii.eqb_spec a Re.newline); [contradiction|reflexivity].
Qed.

(** ** The collector *)

(** C1, at a failing input.  With one summary definition and no series,
    the scrape ends in [UnboundLocalError] and yields no family; with a
    counter definition before it, the scrape yields the family of the
    counter twice and none for the summary. *)
Theorem summary_family_not_yielded :
  collect [("net/latency", [Sample.summary_metric])]
    = ([], Raise (UnboundLocalError "c")) /\
  collect [("net/packets", [Sample.counter_metric]);
           ("net/latency", [Sample.summary_metric])]
    = ([counter_family (self Sample.counter_metric);
        counter_family (self Sample.counter_metric)], Ok tt).
Proof. split; reflexivity. Qed.

(** C9, at a failing input.  A message for a metric of type [untyped]
    is stored after a warning, and the scrape that follows ends in
    [KeyError] without a family. *)
Theorem unknown_type_fails_scrape :
  let userdata := [("tank/level", [Sample.untyped_metric])] in
  let after := _on_message (Message "tank/level" "7") userdata Sample.w0 in
  let userdata' := snd (fst after) in
  fst (fst after) = Ok tt /\
  snd after = World [InvalidMetricType "untyped"] 1 /\
  map (fun entry => map (fun m => Dict.keys (store (self m))) (snd entry))
      userdata'
    = [[["topic:tank/level"]]] /\
  collect userdata = ([], Raise (KeyError "untyped")) /\
  collect userdata' = ([], Raise (KeyError "untyped")).
Proof. repeat split; reflexivity. Qed.

(** *** Gauges and counters *)

Section CollectorProperties.

Context {lib : PyLib}.

Lemma append_by_type_known g c h s (d : mdict lib) :
  In (type d) METRIC_TYPES ->
  append_by_type (by_type g c h s) d
  = Ok (by_type (g ++ of_type "gauge" [d]) (c ++ of_type "counter" [d])
                (h ++ of_type "histogram" [d]) (s ++ of_type "summary" [d])).
Proof.
  intros Hin. unfold METRIC_TYPES in Hin. simpl in Hin.
  destruct Hin as [H|[H|[H|[H|[]]]]];
    unfold append_by_type, by_type, of_type, Dict.getitem; simpl;
    rewrite <- H; simpl; rewrite ?app_nil_r; reflexivity.
Qed.

Lemma of_type_app t (l1 l2 : list (mdict lib)) :
  of_type t (l1 ++ l2) = of_type t l1 ++ of_type t l2.
Proof. apply filter_app. Qed.

Lemma of_type_step t (g : list (mdict lib)) d rest :
  (g ++ of_type t [d]) ++ of_type t rest = g ++ of_type t (d :: rest).
Proof.
  rewrite <- app_assoc. f_equal. symmetry. apply (of_type_app t [d] rest).
Qed.

Lemma collect_types_known (metrics : list (metric lib)) : forall g c h s,
  (forall d, In d (definitions_of [("", metrics)]) -> In (type d) METRIC_TYPES) ->
  collect_types (by_type g c h s) metrics
  = Ok (let defs := definitions_of [("", metrics)] in
        by_type (g ++ of_type "gauge" defs) (c ++ of_type "counter" defs)
                (h ++ of_type "histogram" defs) (s ++ of_type "summary" defs)).
Proof.
  unfold definitions_of. cbn [flat_map snd]. rewrite app_nil_r.
  induction metrics as [|m metrics IH]; intros g c h s Hk.
  - cbn. now rewrite !app_nil_r.
  - cbn [collect_types flat_map] in *.
    rewrite append_by_type_known by (apply Hk; now left). cbn [rbind].
    destruct (derived_metric m) as [d|]; cbn [app rbind] in *.
    + rewrite append_by_type_known by (apply Hk; right; now left). cbn [rbind].
      rewrite IH by (intros d' Hd'; apply Hk; right; now right).
      cbv zeta. now rewrite !of_type_step.
    + rewrite IH by (intros d' Hd'; apply Hk; now right).
      cbv zeta. now rewrite !of_type_step.
Qed.

Lemma collect_topics_known (userdata : Dict.t (list (metric lib))) :
  forall g c h s,
  (forall d, In d (definitions_of userdata) -> In (type d) METRIC_TYPES) ->
  collect_topics (by_type g c h s) userdata
  = Ok (let defs := definitions_of userdata in
        by_type (g ++ of_type "gauge" defs) (c ++ of_type "counter" defs)
                (h ++ of_type "histogram" defs) (s ++ of_type "summary" defs)).
Proof.
  induction userdata as [|[t metrics] userdata IH]; intros g c h s Hk.
  - cbn. now rewrite !app_nil_r.
  - assert (Hdefs : definitions_of ((t, metrics) :: userdata)
                    = definitions_of [("", metrics)] ++ definitions_of userdata).
    { unfold definitions_of. cbn [flat_map snd]. now rewrite app_nil_r. }
    cbn [collect_topics]. rewrite collect_types_known.
    + cbv zeta. cbn [rbind]. rewrite IH.
      * cbv zeta. rewrite Hdefs, !of_type_app, !app_assoc. reflexivity.
      * intros d Hd. apply Hk. rewrite Hdefs. apply in_or_app. now right.
    + intros d Hd. apply Hk. rewrite Hdefs. apply in_or_app. now left.
Qed.

Lemma yield_each_total {A} (f : A -> family lib) (xs : list A) :
  yield_each (fun x => Ok (f x)) xs = (map f xs, Ok tt).
Proof.
  induction xs as [|x xs IH]; simpl; [reflexivity|]. now rewrite IH.
Qed.

(** X18. Where every dictionary is a gauge or a counter, the scrape yields
    one family for each, with its name, its help text and one sample
    for each stored series (none when nothing is stored): the gauges
    first, then the counters. *)
Lemma collect_gauges_counters (userdata : Dict.t (list (metric lib))) :
  (forall d, In d (definitions_of userdata) ->
             type d = "gauge" \/ type d = "counter") ->
  collect userdata
  = (map gauge_family (of_type "gauge" (definitions_of userdata))
     ++ map counter_family (of_type "counter" (definitions_of userdata)),
     Ok tt).
Proof.
  intros Hk.
  assert (Hnone : forall t, t <> "gauge" -> t <> "counter" ->
                            of_type t (definitions_of userdata) = []).
  { intros t Hg Hc. unfold of_type.
    induction (definitions_of userdata) as [|d defs IH]; [reflexivity|].
    simpl. destruct (String.eqb_spec (type d) t) as [E|E].
    - exfalso. destruct (Hk d (or_introl eq_refl)); congruence.
    - apply IH. intros d' Hd'. apply Hk. now right. }
  unfold collect, _get_metrics_by_type.
  change (map (fun t => (t, [])) METRIC_TYPES) with (by_type (lib := lib) [] [] [] []).
  rewrite collect_topics_known.
  - cbv zeta. unfold by_type, Dict.getitem. simpl.
    rewrite (Hnone "histogram"), (Hnone "summary") by discriminate.
    rewrite yield_each_total. unfold and_then. simpl.
    now rewrite !app_nil_r.
  - intros d Hd. destruct (Hk d Hd) as [-> | ->]; simpl; auto.
Qed.

End CollectorProperties.

(** ** The claims at sample inputs *)

(** C6 as stated fails where a source label is absent: the rule is
    looked at only after its source labels have been read, so an
    unsupported action on the absent label [sensor] ends in [KeyError],
    not in a rejection. *)
Lemma unsupported_action_absent_label :
  action Sample.hashmod_sensor = "hashmod" /\
  Dict.get Sample.labels0 "sensor" = None /\
  _label_config_match (lib := sample_lib) Sample.hashmod_sensor Sample.labels0
    = Raise (KeyError "sensor") /\
  _apply_label_config (lib := sample_lib) Sample.labels0 [Sample.hashmod_sensor]
    = Raise (KeyError "sensor") /\
  update_metric Sample.kitchen
      (Sample.temp_with (Some [Sample.hashmod_sensor])) Sample.w0
    = (Raise (KeyError "sensor"),
       Sample.temp_with (Some [Sample.hashmod_sensor]), Sample.w0).
Proof. repeat split; reflexivity. Qed.

(** C5 as stated fails where a source label is absent: the [replace]
    rule on the absent label [sensor] ends in [KeyError], and the [keep]
    rule after it, which would reject the message, is not reached. *)
Lemma replace_rule_absent_label :
  action Sample.room_from_sensor = "replace" /\
  Dict.get Sample.labels0 "sensor" = None /\
  _label_config_rename (lib := sample_lib) Sample.room_from_sensor Sample.labels0
    = Raise (KeyError "sensor") /\
  _apply_label_config (lib := sample_lib) Sample.labels0
      [Sample.room_from_sensor; Sample.keep_garage]
    = Raise (KeyError "sensor") /\
  _apply_label_config (lib := sample_lib) Sample.labels0 [Sample.keep_garage]
    = Ok (false, Sample.labels0).
Proof. repeat split; reflexivity. Qed.

(** C2 at [room_first] and [topic_first], which hold the same labels
    in two orders and different values. *)
Lemma same_labels_same_series_witness :
  series_key_of Sample.room_first = series_key_of Sample.topic_first.
Proof.
  refine (proj1 (@same_labels_same_series sample_lib "temp"
                   Sample.room_first Sample.topic_first
                   Sample.temp_dict (snd (fst Sample.exported_once))
                   Sample.w0 (snd Sample.exported_once)
                   (@PFloat sample_lib (Decimal 220 1)) _ _ _ _)).
  - unfold Dict.wf. simpl. repeat constructor; simpl; intuition discriminate.
  - simpl. apply perm_swap.
  - reflexivity.
  - reflexivity.
Defined.

(** C3 at a [keep] rule for the garage and a message from the kitchen. *)
Lemma keep_drop_rule_witness :
  update_metric Sample.kitchen
      (Sample.temp_with (Some [Sample.keep_garage; Sample.sensor_from_topic]))
      Sample.w0
    = (Ok tt,
       Sample.temp_with (Some [Sample.keep_garage; Sample.sensor_from_topic]),
       Sample.w0).
Proof.
  refine (proj1 (proj2 (proj2 (proj1
    (@keep_drop_rule sample_lib
       (Sample.temp_with (Some [Sample.keep_garage; Sample.sensor_from_topic]))
       Sample.kitchen Sample.w0 [] Sample.keep_garage [Sample.sensor_from_topic]
       Sample.labels0 "home/kitchen/temp" false _ _ _ _) _)))).
  - reflexivity.
  - reflexivity.
  - reflexivity.
  - reflexivity.
  - left. split; reflexivity.
Defined.

(** C6 (as amended) at a [hashmod] rule on the topic of the message. *)
Lemma unsupported_action_rejects_witness :
  update_metric Sample.kitchen
      (Sample.temp_with (Some [Sample.hashmod_topic; Sample.sensor_from_topic]))
      Sample.w0
    = (Ok tt,
       Sample.temp_with (Some [Sample.hashmod_topic; Sample.sensor_from_topic]),
       Sample.w0).
Proof.
  refine (proj1 (proj2 (proj2
    (@unsupported_action_rejects sample_lib
       (Sample.temp_with (Some [Sample.hashmod_topic; Sample.sensor_from_topic]))
       Sample.kitchen Sample.w0 [] Sample.hashmod_topic [Sample.sensor_from_topic]
       Sample.labels0 "home/kitchen/temp" true _ _ _ _ _ _ _)))).
  - reflexivity.
  - reflexivity.
  - intros H. discriminate H.
  - intros H. discriminate H.
  - intros H. discriminate H.
  - reflexivity.
  - reflexivity.
Defined.

(** C5 (as amended) at the rule that copies the topic of the message
    into the label [sensor]. *)
Lemma replace_rule_witness :
  _apply_label_config (lib := sample_lib) Sample.labels0
      [Sample.sensor_from_topic; Sample.keep_garage]
    = _apply_label_config (lib := sample_lib)
        (Dict.setitem Sample.labels0 "sensor" "home/kitchen/temp")
        [Sample.keep_garage].
Proof.
  refine (proj1 (proj2
    (proj2 (proj2
       (@replace_rule sample_lib Sample.sensor_from_topic
          [Sample.keep_garage] Sample.labels0
          "home/kitchen/temp" true _ _ _))
       _ "sensor" "home/kitchen/temp" _ _))).
  - reflexivity.
  - reflexivity.
  - reflexivity.
  - reflexivity.
  - reflexivity.
  - reflexivity.
Defined.

(** C4 at the payload [warm]. *)
Lemma non_numeric_value_rejected_witness :
  exists t,
    Dict.get (initial_labels Sample.temp Sample.warm) "__msg_topic__" = Some t /\
    update_metric Sample.warm Sample.temp Sample.w0
    = (Ok tt, Sample.temp, World [ValueNotNumber "warm" "temp" t] 0) /\
    _update_metrics Sample.warm [Sample.temp] Sample.w0
    = (Ok tt, [Sample.temp], World [ValueNotNumber "warm" "temp" t] 0).
Proof.
  refine (@non_numeric_value_rejected sample_lib Sample.warm Sample.temp
            Sample.w0 (initial_labels Sample.temp Sample.warm) "warm" _ _ _).
  - reflexivity.
  - reflexivity.
  - reflexivity.
Defined.

(** C7 at the first message for a gauge on [home/+/temp]. *)
Lemma last_received_upsert_witness :
  exists m' w' d',
    update_metric Sample.kitchen Sample.temp Sample.w0 = (Ok tt, m', w') /\
    _update_metrics Sample.kitchen [Sample.temp] Sample.w0 = (Ok tt, [m'], w') /\
    ticks w' = 1 /\
    derived_metric m' = Some d' /\
    name d' = "temp_last_received" /\
    type d' = "gauge" /\
    help d' = "Last received message for 'temp'" /\
    label_names d' = Some ["topic"] /\
    store d'
    = [("topic:home/+/temp",
        Series (name d') [PStr "home/+/temp"] (PInt 1700000000000))] /\
    topic m' = "home/+/temp" /\
    name (self m') = "temp" /\
    derived_inv m'.
Proof.
  refine (@last_received_upsert sample_lib Sample.kitchen Sample.temp
            Sample.w0 Sample.labels0 "21.5" (Decimal 215 1) _ _ _ _).
  - exact I.
  - reflexivity.
  - reflexivity.
  - reflexivity.
Defined.

(** * Further properties *)

(** ** Configuration helpers *)

Lemma get_update {V} (other : Dict.t V) : forall (d : Dict.t V) k,
  Dict.wf other ->
  Dict.get (Dict.update d other) k
  = match Dict.get other k with
    | Some v => Some v
    | None => Dict.get d k
    end.
Proof.
  unfold Dict.update, Dict.wf.
  induction other as [|[k0 v0] other IH]; intros d k Hwf; [reflexivity|].
  simpl in Hwf. inversion Hwf as [|? ? Hnin Hnd]; subst.
  simpl. rewrite IH by assumption.
  destruct (String.eqb_spec k0 k) as [->|Hne].
  - apply get_none_not_in in Hnin. rewrite Hnin. apply get_setitem_same.
  - destruct (Dict.get other k); [reflexivity|].
    now apply get_setitem_other.
Qed.

Lemma keys_setitem_extends {V} (d : Dict.t V) k v :
  exists added, Dict.keys (Dict.setitem d k v) = Dict.keys d ++ added.
Proof.
  destruct (Dict.get d k) eqn:E.
  - exists []. rewrite app_nil_r. apply keys_setitem_present. congruence.
  - exists [k]. now apply keys_setitem_absent.
Qed.

Lemma keys_update_extends {V} (other : Dict.t V) : forall d : Dict.t V,
  exists added, Dict.keys (Dict.update d other) = Dict.keys d ++ added.
Proof.
  unfold Dict.update.
  induction other as [|[k0 v0] other IH]; intros d; simpl.
  - exists []. now rewrite app_nil_r.
  - destruct (IH (Dict.setitem d k0 v0)) as [a1 H1].
    destruct (keys_setitem_extends d k0 v0) as [a0 H0].
    exists (a0 ++ a1). now rewrite H1, H0, app_assoc.
Qed.

(** X1. [_add_config_and_defaults]: in the dictionary returned, a key
    of the configuration has the configured value, any other key has
    its default, and the keys of the defaults come first, in their
    order; without a configuration the defaults are returned. *)
Theorem add_config_and_defaults_lookup {V}
  (config : Dict.t V) (defaults : Dict.t V) :
  Dict.wf config ->
  (forall k,
     Dict.get (_add_config_and_defaults (Some config) defaults) k
     = match Dict.get config k with
       | Some v => Some v
       | None => Dict.get defaults k
       end) /\
  (exists added,
     Dict.keys (_add_config_and_defaults (Some config) defaults)
     = Dict.keys defaults ++ added) /\
  _add_config_and_defaults None defaults = defaults.
Proof.
  intros Hwf. split; [|split].
  - intros k. now apply get_update.
  - apply keys_update_extends.
  - reflexivity.
Qed.

(** X2. [_validate_required_fields] returns exactly when every required
    field is in the configuration with a value other than [None];
    otherwise it raises the [TypeError] that names the first required
    field that is absent or [None]. *)
Theorem validate_required_fields_spec
  (config : Dict.t cfg) (parent : option string) (fields : list string) :
  (_validate_required_fields config parent fields = Ok tt <->
   forall f, In f fields ->
             exists v, Dict.get config f = Some v /\ v <> CNone) /\
  (forall e,
     _validate_required_fields config parent fields = Raise e ->
     exists before f after,
       fields = before ++ f :: after /\
       (forall g, In g before ->
                  exists v, Dict.get config g = Some v /\ v <> CNone) /\
       (Dict.get config f = None \/ Dict.get config f = Some CNone) /\
       e = required_error parent f).
Proof.
  induction fields as [|f fields [IHok IHerr]].
  - split; [split; [intros _ f []|reflexivity]|discriminate].
  - simpl. destruct (Dict.get config f) as [v|] eqn:Ef.
    + destruct v; simpl;
        try (split;
             [ split;
               [ intros H g [<-|Hg];
                 [eexists; split; [exact Ef|discriminate]|now apply IHok]
               | intros H; apply IHok; intros g Hg; apply H; now right ]
             | intros e He;
               destruct (IHerr e He) as (before & g & after & -> & Hb & Hg & ->);
               exists (f :: before), g, after;
               repeat split; try assumption;
               intros h [<-|Hh];
               [eexists; split; [exact Ef|discriminate]|now apply Hb] ]).
      split.
      * split; [discriminate|].
        intros H. destruct (H f (or_introl eq_refl)) as (v & Hv & Hn).
        congruence.
      * intros e [= <-]. exists [], f, fields.
        repeat split; [intros g []|now right].
    + split.
      * split; [discriminate|].
        intros H. destruct (H f (or_introl eq_refl)) as (v & Hv & Hn).
        congruence.
      * intros e [= <-]. exists [], f, fields.
        repeat split; [intros g []|now left].
Qed.

Lemma get_filter_wf {V} (f : string * V -> bool) (d : Dict.t V) k :
  Dict.wf d ->
  Dict.get (filter f d) k
  = match Dict.get d k with
    | Some v => if f (k, v) then Some v else None
    | None => None
    end.
Proof.
  unfold Dict.wf.
  induction d as [|[k0 v0] d IH]; intros Hwf; [reflexivity|].
  simpl in Hwf. inversion Hwf as [|? ? Hnin Hnd]; subst.
  simpl. destruct (String.eqb_spec k0 k) as [->|Hne].
  - destruct (f (k, v0)) eqn:Ef; simpl.
    + now rewrite String.eqb_refl.
    + rewrite IH by assumption.
      apply get_none_not_in in Hnin. now rewrite Hnin.
  - destruct (f (k0, v0)); simpl.
    + apply String.eqb_neq in Hne. rewrite Hne. now apply IH.
    + now apply IH.
Qed.

Lemma filter_idempotent {A} (f : A -> bool) (l : list A) :
  filter f (filter f l) = filter f l.
Proof.
  induction l as [|x l IH]; simpl; [reflexivity|].
  destruct (f x) eqn:E; simpl; [rewrite E|]; now rewrite ?IH.
Qed.

(** X3. [_strip_config] keeps a key exactly when it is allowed and its
    value is true in a condition, with the value it had; what it returns
    is a dictionary again, and stripping it once more changes nothing. *)
Theorem strip_config_lookup (config : Dict.t cfg) (allowed_keys : list string) :
  Dict.wf config ->
  (forall k,
     Dict.get (_strip_config config allowed_keys) k
     = match Dict.get config k with
       | Some v =>
           if existsb (String.eqb k) allowed_keys && truthy v
           then Some v else None
       | None => None
       end) /\
  Dict.wf (_strip_config config allowed_keys) /\
  _strip_config (_strip_config config allowed_keys) allowed_keys
  = _strip_config config allowed_keys.
Proof.
  intros Hwf. unfold _strip_config. split; [|split].
  - intros k. now rewrite get_filter_wf.
  - now apply wf_filter.
  - apply filter_idempotent.
Qed.

(** ** Topics of the configuration *)

Section TopicProperties.

Context {lib : PyLib}.

Lemma get_append_by_topic (acc : Dict.t (list (metric lib))) m t :
  Dict.get (append_by_topic acc m) t
  = if topic m =? t
    then Some (match Dict.get acc t with
               | Some l => l ++ [m]
               | None => [m]
               end)
    else Dict.get acc t.
Proof.
  unfold append_by_topic. destruct (String.eqb_spec (topic m) t) as [->|Hne].
  - apply get_setitem_same.
  - now apply get_setitem_other.
Qed.

Lemma get_group_from (metrics : list (metric lib)) :
  forall (acc : Dict.t (list (metric lib))) t,
  Dict.get (fold_left append_by_topic metrics acc) t
  = match Dict.get acc t, filter (fun m => topic m =? t) metrics with
    | Some l, found => Some (l ++ found)
    | None, [] => None
    | None, found => Some found
    end.
Proof.
  induction metrics as [|m metrics IH]; intros acc t; simpl.
  - destruct (Dict.get acc t); [now rewrite app_nil_r|reflexivity].
  - rewrite IH, get_append_by_topic.
    destruct (topic m =? t).
    + destruct (Dict.get acc t); [now rewrite <- app_assoc|reflexivity].
    + reflexivity.
Qed.

Lemma wf_group_from (metrics : list (metric lib)) :
  forall acc : Dict.t (list (metric lib)),
  Dict.wf acc -> Dict.wf (fold_left append_by_topic metrics acc).
Proof.
  induction metrics as [|m metrics IH]; intros acc Hwf; simpl; [assumption|].
  apply IH. unfold append_by_topic. now apply wf_setitem.
Qed.

Lemma group_by_topic_lookup_aux (metrics : list (metric lib)) :
  (forall t,
     Dict.get (_group_by_topic metrics) t
     = match filter (fun m => topic m =? t) metrics with
       | [] => None
       | found => Some found
       end) /\
  Dict.wf (_group_by_topic metrics).
Proof.
  split.
  - intros t. unfold _group_by_topic. now rewrite get_group_from.
  - apply wf_group_from. constructor.
Qed.

(** X4. [_group_by_topic] puts under each topic the metrics that have
    this topic, all of them and in their order, and has no entry for a
    topic that no metric has; each topic is a key once. *)
Theorem group_by_topic_lookup (metrics : list (metric lib)) :
  (forall t,
     Dict.get (_group_by_topic metrics) t
     = match filter (fun m => topic m =? t) metrics with
       | [] => None
       | found => Some found
       end) /\
  Dict.wf (_group_by_topic metrics).
Proof. apply group_by_topic_lookup_aux. Qed.

(** X5. After [_group_by_topic], [_on_connect] subscribes once to each
    topic that a metric has, and to nothing else. *)
Theorem subscriptions_are_the_topics (metrics : list (metric lib)) :
  NoDup (_on_connect (_group_by_topic metrics)) /\
  forall t,
    In t (_on_connect (_group_by_topic metrics)) <->
    exists m, In m metrics /\ topic m = t.
Proof.
  destruct (group_by_topic_lookup_aux metrics) as [Hget Hwf].
  split; [exact Hwf|].
  intros t. unfold _on_connect.
  assert (Hin : In t (Dict.keys (_group_by_topic metrics)) <->
                Dict.get (_group_by_topic metrics) t <> None).
  { pose proof (get_none_not_in (_group_by_topic metrics) t) as H.
    destruct (Dict.get (_group_by_topic metrics) t); split; intros H0.
    - discriminate.
    - destruct (in_dec string_dec t (Dict.keys (_group_by_topic metrics)))
        as [Hi|Hn]; [exact Hi|].
      apply H in Hn. discriminate.
    - exfalso. now apply (proj1 H eq_refl).
    - congruence. }
  rewrite Hin, Hget.
  destruct (filter (fun m => topic m =? t) metrics) as [|m found] eqn:Ef.
  - split; [congruence|]. intros (m & Hm & Ht). exfalso.
    assert (Hf : In m (filter (fun m => topic m =? t) metrics)).
    { apply filter_In. split; [assumption|]. now apply String.eqb_eq. }
    rewrite Ef in Hf. destruct Hf.
  - split; [|discriminate]. intros _.
    assert (Hf : In m (filter (fun m => topic m =? t) metrics))
      by (rewrite Ef; now left).
    apply filter_In in Hf as [Hm Ht]. exists m. split; [assumption|].
    now apply String.eqb_eq.
Qed.

End TopicProperties.

(** ** Exports to the store *)

Section ExportProperties.

Context {lib : PyLib}.

(** X6. An export that returns has put its series under the key of its
    labels, with the name and the value given; the series under every
    other key is what it was, no key is removed, and at most this one is
    added, at the end.  Help text, type and buckets of the metric are
    kept. *)
Theorem export_upsert
  (name' : string) (labels : Dict.t (pyval lib)) (m m' : mdict lib)
  (w w' : world) :
  _export_to_prometheus name' labels m w = (Ok tt, m', w') ->
  exists key v e,
    series_key_of labels = Ok key /\
    Dict.get labels "value" = Some v /\
    Dict.get (store m') key = Some e /\
    pm_name e = name' /\ value e = v /\
    (forall k, k <> key -> Dict.get (store m') k = Dict.get (store m) k) /\
    (Dict.keys (store m') = Dict.keys (store m) \/
     Dict.keys (store m') = Dict.keys (store m) ++ [key]) /\
    name m' = name' /\ help m' = help m /\ type m' = type m /\
    buckets m' = buckets m /\
    w' = type_checked m w.
Proof.
  intros H.
  apply export_returns in H
    as (v & names & vals & key & Hv & Hz & Hk & Hkey & -> & ->).
  exists key, v, (Series name' vals v).
  rewrite store_set_series, store_set_names.
  repeat split; try assumption.
  - apply get_setitem_same.
  - intros k Hk'. apply get_setitem_other. congruence.
  - destruct (Dict.get (store m) key) eqn:E.
    + left. apply keys_setitem_present. congruence.
    + right. now apply keys_setitem_absent.
Qed.

(** X7. An export that raises leaves the store of the metric as it
    was.  It raises [KeyError] when the labels have no value and
    [ValueError] when they have nothing but the value, and the metric is
    then untouched; the remaining exception is the [TypeError] of a label
    that is not a string, raised once the name and the label names of
    the metric have been overwritten. *)
Theorem export_raises
  (name' : string) (labels : Dict.t (pyval lib)) (m m' : mdict lib)
  (w w' : world) (e : exn) :
  _export_to_prometheus name' labels m w = (Raise e, m', w') ->
  store m' = store m /\
  w' = type_checked m w /\
  (Dict.get labels "value" = None /\ e = KeyError "value" /\ m' = m \/
   (_get_sorted_tuple_list (Dict.delitem labels "value") = [] /\
    unzip_labels (_get_sorted_tuple_list (Dict.delitem labels "value"))
      = Raise e /\ m' = m) \/
   exists names vals,
     unzip_labels (_get_sorted_tuple_list (Dict.delitem labels "value"))
       = Ok (names, vals) /\
     series_key names vals = Raise e /\
     m' = set_names name' names m).
Proof.
  unfold _export_to_prometheus, bind, get, lift, modify, ret, logging,
    type_checked, Dict.getitem.
  destruct (existsb (String.eqb (type m)) METRIC_TYPES);
    (destruct (Dict.get labels "value") as [v|];
     [|intros [= <- <- <-]; repeat split; left; repeat split]);
    (destruct (_get_sorted_tuple_list (Dict.delitem labels "value"))
       as [|p ps] eqn:Es; cbn [unzip_labels];
     [intros [= <- <- <-]; repeat split; right; left; repeat split|]);
    cbv beta iota;
    (destruct (series_key (map fst (p :: ps)) (map snd (p :: ps)))
       as [key|e'] eqn:Ek; [discriminate|]);
    intros [= <- <- <-]; repeat split; right; right;
    exists (map fst (p :: ps)), (map snd (p :: ps)); repeat split;
    exact Ek.
Qed.

Lemma insert_by_key_sorted {V} (x : string * V) l :
  StronglySorted (fun a b => String.leb (fst a) (fst b) = true) l ->
  StronglySorted (fun a b => String.leb (fst a) (fst b) = true)
                 (insert_by_key x l).
Proof.
  induction 1 as [|y l Hl IH Hy]; simpl.
  - repeat constructor.
  - destruct (String.leb (fst x) (fst y)) eqn:E.
    + constructor; [now constructor|].
      constructor; [exact E|].
      eapply Forall_impl; [|exact Hy].
      intros z Hz. simpl in Hz. eapply string_leb_trans; eassumption.
    + constructor; [exact IH|].
      assert (Hyx : String.leb (fst y) (fst x) = true).
      { destruct (String.leb_total (fst x) (fst y)); congruence. }
      apply Forall_forall. intros z Hz.
      apply (Permutation_in _ (insert_by_key_perm x l)) in Hz.
      destruct Hz as [<-|Hz]; [exact Hyx|].
      rewrite Forall_forall in Hy. now apply Hy.
Qed.

(** X8. [_get_sorted_tuple_list] returns the items of its argument,
    each as often as it occurs there, with keys that never decrease from
    one item to any later one. *)
Theorem sorted_tuple_list_sorted {V} (source : Dict.t V) :
  StronglySorted (fun a b => String.leb (fst a) (fst b) = true)
                 (_get_sorted_tuple_list source) /\
  Permutation (_get_sorted_tuple_list source) source.
Proof.
  split; [|apply sorted_tuple_list_perm].
  induction source as [|x source IH]; simpl; [constructor|].
  now apply insert_by_key_sorted.
Qed.

End ExportProperties.

(** ** The pipeline of rules *)

Section PipelineProperties.

Context {lib : PyLib}.

(** X9. Running a list of rules is running a first part of it and
    then, when that part accepts, the rest on the labels it has left; a
    first part that rejects or raises decides for the whole list. *)
Theorem relabel_rules_compose
  (pre rest : list label_config) (labels : Dict.t string) :
  _apply_label_config labels (pre ++ rest)
  = match _apply_label_config labels pre with
    | Ok (true, labels') => _apply_label_config labels' rest
    | Ok (false, labels') => Ok (false, labels')
    | Raise e => Raise e
    end.
Proof.
  rewrite apply_label_config_app.
  destruct (_apply_label_config labels pre) as [[[|] labels']|e]; reflexivity.
Qed.

Lemma rename_frame lc (labels labels' : Dict.t string) :
  _label_config_rename lc labels = Ok labels' ->
  (exists added, Dict.keys labels' = Dict.keys labels ++ added) /\
  (forall k, target_label lc <> Some k -> Dict.get labels' k = Dict.get labels k).
Proof.
  unfold _label_config_rename.
  destruct (joined_source lc labels) as [s|]; simpl; [|discriminate].
  destruct (re_match (regex lc) s) as [[|]|]; simpl; try discriminate.
  - destruct (re_sub (regex lc) (replacement lc) s) as [r|]; simpl;
      [|discriminate].
    destruct (target_label lc) as [t|]; [|discriminate].
    intros [= <-]. split.
    + apply keys_setitem_extends.
    + intros k Hk. apply get_setitem_other. congruence.
  - intros [= <-]. split; [exists []; now rewrite app_nil_r|reflexivity].
Qed.

(** X10. Whatever the verdict, the rules remove no label and move
    none: the labels they return start with the keys they were given,
    in the same order.  A label that is the target of no [replace] rule
    of the list has the value it had, and a list without a [replace]
    rule returns the labels unchanged. *)
Theorem relabel_rules_frame (rules : list label_config) :
  forall (labels labels' : Dict.t string) (verdict : bool),
  _apply_label_config labels rules = Ok (verdict, labels') ->
  (exists added, Dict.keys labels' = Dict.keys labels ++ added) /\
  (forall k,
     (forall lc, In lc rules -> action lc = "replace" ->
                 target_label lc <> Some k) ->
     Dict.get labels' k = Dict.get labels k) /\
  ((forall lc, In lc rules -> action lc <> "replace") -> labels' = labels).
Proof.
  induction rules as [|lc rules IH]; intros labels labels' verdict; simpl.
  - intros [= <- <-].
    split; [exists []; now rewrite app_nil_r|split; intros; reflexivity].
  - destruct (String.eqb_spec (action lc) "replace") as [Ha|Ha].
    + destruct (_label_config_rename lc labels) as [l1|] eqn:E; simpl;
        [|discriminate].
      intros H. apply rename_frame in E as [[a1 Hk1] Hg1].
      apply IH in H as ([a2 Hk2] & Hg2 & _).
      split; [exists (a1 ++ a2); now rewrite Hk2, Hk1, app_assoc|].
      split.
      * intros k Hk. rewrite Hg2 by (intros; apply Hk; auto).
        apply Hg1. apply Hk; auto.
      * intros Hno. exfalso. apply (Hno lc); auto.
    + destruct (_label_config_match lc labels) as [[|]|]; simpl;
        try discriminate.
      * intros H. apply IH in H as (Hk & Hg & Hsame).
        split; [exact Hk|]. split.
        -- intros k Hk'. apply Hg. intros; apply Hk'; auto.
        -- intros Hno. apply Hsame. intros; apply Hno; auto.
      * intros [= <- <-].
        split; [exists []; now rewrite app_nil_r|split; intros; reflexivity].
Qed.

Lemma traverse_getitem_missing {V} (labels : Dict.t V) present k after :
  (forall x, In x present -> Dict.get labels x <> None) ->
  Dict.get labels k = None ->
  traverse (Dict.getitem labels) (present ++ k :: after) = Raise (KeyError k).
Proof.
  intros Hp Hk. induction present as [|x present IH]; simpl.
  - unfold Dict.getitem at 1. now rewrite Hk.
  - unfold Dict.getitem at 1.
    destruct (Dict.get labels x) eqn:E;
      [|exfalso; apply (Hp x); [now left|exact E]].
    simpl. rewrite IH; [reflexivity|]. intros; apply Hp; now right.
Qed.

(** X11. A rule with a source label that the label set does not have
    raises [KeyError] for the first such label, whatever its action,
    its regex and the rules after it; the update of the metric ends with
    this exception, the metric, the log and the clock being as they
    were, and the metrics after it on the topic are not reached. *)
Theorem absent_source_label_raises
  (m : metric lib) (others : list (metric lib)) (msg : message) (w : world)
  (lc : label_config) (rest : list label_config)
  (present after : list string) (k : string) :
  label_configs m = Some (lc :: rest) ->
  source_labels lc = present ++ k :: after ->
  (forall x, In x present -> Dict.get (initial_labels m msg) x <> None) ->
  Dict.get (initial_labels m msg) k = None ->
  _label_config_match lc (initial_labels m msg) = Raise (KeyError k) /\
  _label_config_rename lc (initial_labels m msg) = Raise (KeyError k) /\
  _apply_label_config (initial_labels m msg) (lc :: rest) = Raise (KeyError k) /\
  update_metric msg m w = (Raise (KeyError k), m, w) /\
  _update_metrics msg (m :: others) w = (Raise (KeyError k), m :: others, w).
Proof.
  intros Hcfg Hsrc Hp Hk.
  assert (Hj : joined_source lc (initial_labels m msg) = Raise (KeyError k)).
  { unfold joined_source. rewrite Hsrc.
    now rewrite traverse_getitem_missing. }
  assert (Hm : _label_config_match lc (initial_labels m msg)
               = Raise (KeyError k))
    by (unfold _label_config_match; now rewrite Hj).
  assert (Hr : _label_config_rename lc (initial_labels m msg)
               = Raise (KeyError k))
    by (unfold _label_config_rename; now rewrite Hj).
  assert (Ha : _apply_label_config (initial_labels m msg) (lc :: rest)
               = Raise (KeyError k)).
  { cbn [_apply_label_config]. rewrite Hm, Hr.
    now destruct (action lc =? "replace"). }
  assert (Hu : update_metric msg m w = (Raise (KeyError k), m, w)).
  { unfold update_metric, bind, get, lift, relabel. now rewrite Hcfg, Ha. }
  repeat split; try assumption.
  unfold _update_metrics. cbn [for_each]. now rewrite Hu.
Qed.

End PipelineProperties.

(** ** Updates *)

Section UpdateInvariants.

Context {lib : PyLib}.

Lemma update_metric_not_number (msg : message) (m : metric lib) w labels v :
  relabel m (initial_labels m msg) = Ok (true, labels) ->
  Dict.get labels "__value__" = Some v ->
  float_of_string (Str.replace v "," ".") = None ->
  exists t,
    update_metric msg m w
    = (Ok tt, m, World (log w ++ [ValueNotNumber v (name (self m)) t]) (ticks w)).
Proof.
  intros Hrel Hv Hx.
  destruct (relabel_keeps _ _ Hrel) as (_ & _ & Hmsg & _).
  destruct (Dict.get labels "__msg_topic__") as [t|] eqn:Et; [|congruence].
  exists t.
  unfold update_metric, bind, get, lift, Dict.getitem, logging.
  rewrite Hrel. cbv beta iota. cbn [negb].
  rewrite Hv, Hx. cbv beta iota. rewrite Et. reflexivity.
Qed.

Lemma update_metric_outcome (msg : message) (m : metric lib) (w : world) :
  let '(r, m', w') := update_metric msg m w in update_outcome msg m w r m' w'.
Proof.
  destruct (relabel m (initial_labels m msg)) as [[[|] labels]|e] eqn:Hrel.
  - destruct (relabel_keeps _ _ Hrel) as (_ & _ & _ & Hval).
    destruct (Dict.get labels "__value__") as [v|] eqn:Hv; [|congruence].
    destruct (float_of_string (Str.replace v "," ".")) as [x|] eqn:Hx.
    + destruct (update_metric_accepted msg m w Hrel Hv Hx)
        as (final & names & vals & key & _ & _ & _ & ->).
      eapply stored; eassumption.
    + destruct (update_metric_not_number msg m w Hrel Hv Hx) as [t ->].
      eapply not_a_number; eassumption.
  - rewrite (update_metric_rejected msg m w Hrel).
    eapply rules_reject; eassumption.
  - assert (H : update_metric msg m w = (Raise e, m, w)).
    { unfold update_metric, bind, get, lift. now rewrite Hrel. }
    rewrite H. now apply rules_raise.
Qed.

(** X12. Once the rules have returned a verdict, the update of the
    metric returns as well: the only exceptions of an update are those
    of its rules. *)
Theorem update_metric_returns
  (msg : message) (m : metric lib) (w : world)
  (verdict : bool) (labels : Dict.t string) :
  relabel m (initial_labels m msg) = Ok (verdict, labels) ->
  exists m' w', update_metric msg m w = (Ok tt, m', w').
Proof.
  intros Hrel. pose proof (update_metric_outcome msg m w) as H.
  destruct (update_metric msg m w) as [[r m'] w'].
  exists m', w'. destruct H; try reflexivity. congruence.
Qed.

Lemma kept_refl (m : metric lib) : kept m m.
Proof.
  repeat split. - exists []. now rewrite app_nil_r; auto.
  - intros d Hd. now exists d.
Qed.

Lemma update_metric_kept (msg : message) (m : metric lib) (w : world) :
  let '(r, m', w') := update_metric msg m w in
  kept m m' /\
  (exists records, log w' = log w ++ records) /\
  (ticks w' = ticks w \/ ticks w' = 1 + ticks w).
Proof.
  pose proof (update_metric_outcome msg m w) as H.
  destruct (update_metric msg m w) as [[r m'] w'].
  destruct H.
  - split; [apply kept_refl|]. split; [exists []; now rewrite app_nil_r|auto].
  - split; [apply kept_refl|]. split; [exists []; now rewrite app_nil_r|auto].
  - split; [apply kept_refl|]. split; [now eexists|auto].
  - split; [|split].
    + unfold kept. cbn [topic label_configs self derived_metric].
      repeat split.
      * rewrite store_set_series, store_set_names.
        destruct (Dict.get (store (self m)) key) eqn:E.
        -- exists []. rewrite app_nil_r. split; [|auto].
           apply keys_setitem_present. congruence.
        -- exists [key]. split; [now apply keys_setitem_absent|auto].
      * intros d Hd. eexists. split; [reflexivity|].
        unfold derived_setdefault. rewrite Hd. repeat split.
    + unfold type_checked.
      destruct (existsb _ METRIC_TYPES), (existsb _ METRIC_TYPES);
        cbn [log]; eexists;
        rewrite <- ?app_assoc; try reflexivity;
        now rewrite app_nil_r.
    + right. now rewrite !ticks_type_checked.
Qed.

(** X13. Whatever its outcome, an update keeps the topic, the rules,
    the name, the help text, the type and the buckets of the metric; the
    keys of its store stay in place and at most one is added, so that no
    series is ever removed; a derived dictionary that is there stays,
    with its name, help text and type.  The log is only added to, and
    the clock is read at most once. *)
Theorem update_metric_keeps (msg : message) (m : metric lib) (w : world) :
  let '(r, m', w') := update_metric msg m w in
  kept m m' /\
  (exists records, log w' = log w ++ records) /\
  (ticks w' = ticks w \/ ticks w' = 1 + ticks w).
Proof. apply update_metric_kept. Qed.

Lemma update_metrics_keeps_aux (msg : message) (metrics : list (metric lib)) :
  forall w,
  let '(r, metrics', w') := _update_metrics msg metrics w in
  Forall2 kept metrics metrics'.
Proof.
  unfold _update_metrics.
  induction metrics as [|m metrics IH]; intros w; cbn [for_each].
  - constructor.
  - pose proof (update_metric_kept msg m w) as Hm.
    destruct (update_metric msg m w) as [[[u|e] m'] w'].
    + specialize (IH w').
      destruct (for_each (update_metric msg) metrics w') as [[r ms'] w''].
      constructor; [apply Hm|exact IH].
    + constructor; [apply Hm|].
      clear. induction metrics; constructor; [apply kept_refl|assumption].
Qed.

(** X14. [_update_metrics] returns as many metrics as it was given, in
    the same order, each with what an update keeps of it, also when one
    of the updates raises. *)
Theorem update_metrics_keeps (msg : message) (metrics : list (metric lib)) :
  forall w,
  let '(r, metrics', w') := _update_metrics msg metrics w in
  Forall2 kept metrics metrics'.
Proof. apply update_metrics_keeps_aux. Qed.

Lemma on_message_entry_kept (msg : message) (entry : string * list (metric lib)) w :
  let '(r, entry', w') :=
    match _topic_matches (fst entry) (msg_topic msg) with
    | Ok true =>
        let '(r, metrics, w') := _update_metrics msg (snd entry) w in
        (r, (fst entry, metrics), w')
    | Ok false => (Ok tt, entry, w)
    | Raise e => (Raise e, entry, w)
    end in
  fst entry' = fst entry /\ Forall2 kept (snd entry) (snd entry').
Proof.
  assert (Hrefl : forall ms : list (metric lib), Forall2 kept ms ms)
    by (induction ms; constructor; [apply kept_refl|assumption]).
  destruct (_topic_matches (fst entry) (msg_topic msg)) as [[|]|e].
  - pose proof (update_metrics_keeps_aux msg (snd entry) w) as H.
    destruct (_update_metrics msg (snd entry) w) as [[r ms] w'].
    split; [reflexivity|exact H].
  - split; [reflexivity|apply Hrefl].
  - split; [reflexivity|apply Hrefl].
Qed.

(** X15. [_on_message] keeps the topic patterns of [userdata], in
    their order, and under each of them the metrics it had, each with
    what an update keeps of it, whatever the message and also when the
    handling raises. *)
Theorem on_message_keeps (msg : message) (userdata : Dict.t (list (metric lib))) :
  forall w,
  let '(r, userdata', w') := _on_message msg userdata w in
  Forall2 (fun entry entry' =>
             fst entry' = fst entry /\ Forall2 kept (snd entry) (snd entry'))
          userdata userdata'.
Proof.
  assert (Hrefl : forall ms : list (metric lib), Forall2 kept ms ms)
    by (induction ms; constructor; [apply kept_refl|assumption]).
  unfold _on_message.
  induction userdata as [|entry userdata IH]; intros w; cbn [for_each].
  - constructor.
  - pose proof (on_message_entry_kept msg entry w) as He.
    destruct (match _topic_matches (fst entry) (msg_topic msg) with
              | Ok true => _
              | Ok false => _
              | Raise e => _
              end) as [[[u|e] entry'] w'].
    + specialize (IH w').
      match goal with
      | |- context [for_each ?b userdata w'] =>
          destruct (for_each b userdata w') as [[r us'] w'']
      end.
      constructor; [exact He|exact IH].
    + constructor; [exact He|].
      clear - Hrefl. induction userdata; constructor; auto.
Qed.

(** X16. A message whose topic no pattern of [userdata] matches
    changes nothing: the metrics, the log and the clock are as they
    were. *)
Theorem on_message_no_match
  (msg : message) (userdata : Dict.t (list (metric lib))) (w : world) :
  (forall entry, In entry userdata ->
                 _topic_matches (fst entry) (msg_topic msg) = Ok false) ->
  _on_message msg userdata w = (Ok tt, userdata, w).
Proof.
  unfold _on_message.
  induction userdata as [|entry userdata IH]; intros H; cbn [for_each].
  - reflexivity.
  - rewrite (H entry (or_introl eq_refl)).
    rewrite IH by (intros; apply H; now right). reflexivity.
Qed.

(** X17. For a pattern without [+] and [#], [_topic_matches] is the
    equality of the pattern and the topic; no regular expression is
    built. *)
Theorem topic_matches_literal (topic1 topic2 : string) :
  Str.contains topic1 "+" = false ->
  Str.contains topic1 "#" = false ->
  _topic_matches topic1 topic2 = Ok (topic1 =? topic2).
Proof.
  intros Hplus Hhash. unfold _topic_matches.
  destruct (topic1 =? topic2); [reflexivity|].
  now rewrite Hplus, Hhash.
Qed.

End UpdateInvariants.

(** ** Scrapes *)

Section ScrapeProperties.

Context {lib : PyLib}.

Lemma append_by_type_unknown g c h s (d : mdict lib) :
  unknown_type d = true ->
  append_by_type (by_type g c h s) d = Raise (KeyError (type d)).
Proof.
  unfold unknown_type, METRIC_TYPES. cbn [existsb].
  rewrite negb_true_iff, !orb_false_iff.
  intros (H1 & H2 & H3 & H4 & _).
  unfold append_by_type, by_type, Dict.getitem. cbn [Dict.get].
  rewrite (String.eqb_sym "gauge"), H1, (String.eqb_sym "counter"), H2,
    (String.eqb_sym "histogram"), H3, (String.eqb_sym "summary"), H4.
  reflexivity.
Qed.

Lemma known_type (d : mdict lib) :
  unknown_type d = false -> In (type d) METRIC_TYPES.
Proof.
  unfold unknown_type. rewrite negb_false_iff. intros H.
  apply existsb_exists in H as (t & Hin & Ht).
  apply String.eqb_eq in Ht. now rewrite Ht.
Qed.

Lemma find_app {A} (f : A -> bool) (l1 l2 : list A) :
  find f (l1 ++ l2)
  = match find f l1 with
    | Some x => Some x
    | None => find f l2
    end.
Proof.
  induction l1 as [|x l1 IH]; simpl; [reflexivity|]. now destruct (f x).
Qed.

Lemma definitions_of_cons t (metrics : list (metric lib)) userdata :
  definitions_of ((t, metrics) :: userdata)
  = definitions_of [("", metrics)] ++ definitions_of userdata.
Proof. unfold definitions_of. cbn [flat_map snd]. now rewrite app_nil_r. Qed.

Lemma collect_types_spec (metrics : list (metric lib)) : forall g c h s,
  collect_types (by_type g c h s) metrics
  = match find unknown_type (definitions_of [("", metrics)]) with
    | Some d => Raise (KeyError (type d))
    | None =>
        Ok (let defs := definitions_of [("", metrics)] in
            by_type (g ++ of_type "gauge" defs) (c ++ of_type "counter" defs)
                    (h ++ of_type "histogram" defs)
                    (s ++ of_type "summary" defs))
    end.
Proof.
  unfold definitions_of. cbn [flat_map snd]. rewrite app_nil_r.
  induction metrics as [|m metrics IH]; intros g c h s.
  - cbn. now rewrite !app_nil_r.
  - cbn [collect_types flat_map app find].
    destruct (unknown_type (self m)) eqn:Em.
    + now rewrite append_by_type_unknown.
    + rewrite append_by_type_known by now apply known_type.
      cbn [rbind].
      destruct (derived_metric m) as [d|]; cbn [app find rbind].
      * destruct (unknown_type d) eqn:Ed.
        -- now rewrite append_by_type_unknown.
        -- rewrite append_by_type_known by now apply known_type.
           cbn [rbind]. rewrite IH.
           destruct (find unknown_type _); [reflexivity|].
           cbv zeta. now rewrite !of_type_step.
      * rewrite IH.
        destruct (find unknown_type _); [reflexivity|].
        cbv zeta. now rewrite !of_type_step.
Qed.

Lemma collect_topics_spec (userdata : Dict.t (list (metric lib))) :
  forall g c h s,
  collect_topics (by_type g c h s) userdata
  = match find unknown_type (definitions_of userdata) with
    | Some d => Raise (KeyError (type d))
    | None =>
        Ok (let defs := definitions_of userdata in
            by_type (g ++ of_type "gauge" defs) (c ++ of_type "counter" defs)
                    (h ++ of_type "histogram" defs)
                    (s ++ of_type "summary" defs))
    end.
Proof.
  induction userdata as [|[t metrics] userdata IH]; intros g c h s.
  - cbn. now rewrite !app_nil_r.
  - rewrite definitions_of_cons, find_app.
    cbn [collect_topics]. rewrite collect_types_spec.
    destruct (find unknown_type (definitions_of [("", metrics)]));
      [reflexivity|].
    cbv zeta. cbn [rbind]. rewrite IH.
    destruct (find unknown_type (definitions_of userdata)); [reflexivity|].
    cbv zeta. now rewrite !of_type_app, !app_assoc.
Qed.

(** X19. [_get_metrics_by_type] goes through the dictionaries in the
    order of [userdata], each metric before its derived dictionary.  It
    raises [KeyError] for the first one whose type is none of the four
    known types; when there is none, it returns the dictionaries of each
    known type, all of them and in this order. *)
Theorem get_metrics_by_type_spec (userdata : Dict.t (list (metric lib))) :
  _get_metrics_by_type userdata
  = match find unknown_type (definitions_of userdata) with
    | Some d => Raise (KeyError (type d))
    | None =>
        Ok (of_type "gauge" (definitions_of userdata),
            of_type "counter" (definitions_of userdata),
            of_type "histogram" (definitions_of userdata),
            of_type "summary" (definitions_of userdata))
    end.
Proof.
  unfold _get_metrics_by_type.
  change (map (fun t => (t, [])) METRIC_TYPES)
    with (by_type (lib := lib) [] [] [] []).
  rewrite collect_topics_spec.
  destruct (find unknown_type (definitions_of userdata)); reflexivity.
Qed.

Lemma yield_each_all {A} (P : family lib -> Prop) (body : A -> result (family lib))
  (xs : list A) :
  (forall x f, body x = Ok f -> P f) ->
  Forall P (fst (yield_each body xs)).
Proof.
  intros H. induction xs as [|x xs IH]; simpl; [constructor|].
  destruct (body x) as [f|e] eqn:E; [|constructor].
  destruct (yield_each body xs) as [fs r]. simpl in *.
  constructor; [now apply (H x)|exact IH].
Qed.

Lemma and_then_all (P : family lib -> Prop) (g1 g2 : generated) :
  Forall P (fst g1) -> Forall P (fst g2) -> Forall P (fst (and_then g1 g2)).
Proof.
  intros H1 H2. unfold and_then. destruct (snd g1); [|exact H1].
  simpl. apply Forall_app. now split.
Qed.

Lemma last_some_in {A} (l : list A) x :
  last (map Some l) None = Some x -> In x l.
Proof.
  induction l as [|y l IH]; [discriminate|].
  destruct l as [|z l].
  - simpl. intros [= ->]. now left.
  - intros H. right. apply IH. exact H.
Qed.

(** X20. Whatever the store holds, every family that a scrape yields
    was built by [GaugeMetricFamily] or by [CounterMetricFamily]: the
    family of a histogram or of a summary is never yielded. *)
Theorem collect_kinds (userdata : Dict.t (list (metric lib))) :
  Forall (fun f => kind f = GaugeMetricFamily \/ kind f = CounterMetricFamily)
         (fst (collect userdata)).
Proof.
  unfold collect.
  destruct (_get_metrics_by_type userdata) as [[[[gs cs] hs] ss]|e];
    [|constructor].
  set (P := fun f : family lib =>
              kind f = GaugeMetricFamily \/ kind f = CounterMetricFamily).
  assert (Hc : forall c f,
             read_c (last (map Some (map counter_family cs)) None) = Ok f ->
             c = tt -> P f).
  { intros _ f H _. unfold read_c in H.
    destruct (last _ None) as [f'|] eqn:E; [|discriminate].
    injection H as <-. apply last_some_in in E.
    apply in_map_iff in E as (cm & <- & _). now right. }
  apply and_then_all.
  - apply yield_each_all. intros gm f [= <-]. now left.
  - apply and_then_all.
    + simpl. apply Forall_forall. intros f Hf.
      apply in_map_iff in Hf as (cm & <- & _). now right.
    + apply and_then_all.
      * apply yield_each_all. intros hm f H. unfold histogram_step in H.
        destruct (buckets hm); [|discriminate]. simpl in H.
        now apply (Hc tt).
      * apply yield_each_all. intros sm f H. unfold summary_step in H.
        now apply (Hc tt).
Qed.

(** X21. A first message for a gauge without rules, on a topic that
    its pattern matches and with a payload that is a number, followed by
    a scrape: the scrape yields the family of the gauge, with the pattern
    as its only label and the payload as its only sample, and then the
    family of its [_last_received] gauge with the clock reading. *)
Theorem publish_then_scrape
  (m : metric lib) (msg : message) (w : world) (x : pyfloat) :
  type (self m) = "gauge" ->
  label_configs m = None ->
  derived_metric m = None ->
  prometheus_metric (self m) = None ->
  _topic_matches (topic m) (msg_topic msg) = Ok true ->
  float_of_string (Str.replace (msg_payload msg) "," ".") = Some x ->
  let '(r, userdata', w') := _on_message msg [(topic m, [m])] w in
  r = Ok tt /\
  w' = World (log w) (1 + ticks w) /\
  collect userdata'
  = ([Family GaugeMetricFamily (name (self m)) (help (self m)) None
             (Some ["topic"]) [([PStr (topic m)], PFloat x)];
      Family GaugeMetricFamily (name (self m) ++ "_last_received")
             ("Last received message for '" ++ name (self m) ++ "'") None
             (Some ["topic"])
             [([PStr (topic m)], PInt (clock_ms (ticks w)))]],
     Ok tt).
Proof.
  destruct m as [[n h ty b ln pm] t lcs d]. cbn [self type label_configs
    derived_metric prometheus_metric topic name help].
  intros -> -> -> -> Hmatch Hx.
  unfold _on_message, _update_metrics. cbn [for_each fst snd].
  rewrite Hmatch. cbn [for_each].
  unfold update_metric, bind, get, lift, relabel, initial_labels.
  cbn [label_configs topic self name negb].
  assert (Hv : Dict.getitem
                 [("__topic__", t); ("__msg_topic__", msg_topic msg);
                  ("__value__", msg_payload msg)] "__value__"
               = Ok (msg_payload msg)) by reflexivity.
  rewrite Hv. cbv beta iota. rewrite Hx.
  repeat split.
Qed.

End ScrapeProperties.

(** ** Labels for the store *)

Section FinalizeProperties.

Context {lib : PyLib}.

(** X22. For labels that have [__value__] and [__topic__],
    [finalize_labels] returns labels in which no name starts with two
    underscores, [value] and [topic] hold what [__value__] and
    [__topic__] held, whatever a label of that name held before, and
    every other label whose name does not start with two underscores is
    as it was. *)
Theorem finalize_labels_spec (labels : Dict.t (pyval lib)) (v t : pyval lib) :
  Dict.get labels "__value__" = Some v ->
  Dict.get labels "__topic__" = Some t ->
  exists final,
    finalize_labels labels = Ok final /\
    Dict.get final "value" = Some v /\
    Dict.get final "topic" = Some t /\
    (forall k, Str.startswith k "__" = true -> Dict.get final k = None) /\
    (forall k, Str.startswith k "__" = false -> k <> "value" -> k <> "topic" ->
               Dict.get final k = Dict.get labels k).
Proof.
  intros Hv Ht. unfold finalize_labels, Dict.getitem.
  rewrite Hv. cbn [rbind].
  rewrite get_setitem_other by discriminate. rewrite Ht. cbn [rbind].
  eexists. split; [reflexivity|].
  repeat split.
  - rewrite (get_filter_keys (fun k => negb (Str.startswith k "__"))).
    cbn [Str.startswith prefix negb].
    rewrite get_setitem_other by discriminate. apply get_setitem_same.
  - rewrite (get_filter_keys (fun k => negb (Str.startswith k "__"))).
    apply get_setitem_same.
  - intros k Hk.
    rewrite (get_filter_keys (fun k => negb (Str.startswith k "__"))).
    now rewrite Hk.
  - intros k Hk Hkv Hkt.
    rewrite (get_filter_keys (fun k => negb (Str.startswith k "__"))).
    rewrite Hk. cbn [negb].
    rewrite !get_setitem_other by congruence. reflexivity.
Qed.

End FinalizeProperties.

(** ** The further properties at sample inputs *)

Lemma wf_mqtt_config : Dict.wf Examples.mqtt_config.
Proof.
  unfold Dict.wf. simpl. repeat constructor; simpl; intuition discriminate.
Defined.

(** X1 at a configuration that gives the host and no port. *)
Lemma add_config_and_defaults_lookup_witness :
  Dict.get (_add_config_and_defaults (Some Examples.mqtt_config)
                                     Examples.mqtt_defaults) "port"
    = Some (CInt 1883) /\
  Dict.get (_add_config_and_defaults (Some Examples.mqtt_config)
                                     Examples.mqtt_defaults) "host"
    = Some (CStr "broker.lan").
Proof.
  split.
  - exact (proj1 (@add_config_and_defaults_lookup cfg Examples.mqtt_config
                    Examples.mqtt_defaults wf_mqtt_config) "port").
  - exact (proj1 (@add_config_and_defaults_lookup cfg Examples.mqtt_config
                    Examples.mqtt_defaults wf_mqtt_config) "host").
Defined.

(** X3 at a configuration with an empty password and a keepalive of 0. *)
Lemma strip_config_lookup_witness :
  Dict.get (_strip_config Examples.mqtt_config ["username"; "password"])
           "password" = None /\
  Dict.get (_strip_config Examples.mqtt_config ["username"; "password"])
           "username" = Some (CStr "exporter").
Proof.
  split.
  - exact (proj1 (@strip_config_lookup Examples.mqtt_config
                    ["username"; "password"] wf_mqtt_config) "password").
  - exact (proj1 (@strip_config_lookup Examples.mqtt_config
                    ["username"; "password"] wf_mqtt_config) "username").
Defined.

(** X6 at the export of [room_first] to a metric without series. *)
Lemma export_upsert_witness :
  exists key,
    series_key_of Sample.room_first = Ok key /\
    Dict.keys (store (snd (fst Sample.exported_once))) = [key].
Proof.
  destruct (@export_upsert sample_lib "temp" Sample.room_first Sample.temp_dict
              (snd (fst Sample.exported_once)) Sample.w0
              (snd Sample.exported_once) eq_refl)
    as (key & v & e & Hkey & _ & _ & _ & _ & _ & Hkeys & _).
  exists key. split; [exact Hkey|].
  destruct Hkeys as [Hk|Hk]; [discriminate Hk|exact Hk].
Defined.

(** X7 at labels without a value. *)
Lemma export_raises_witness :
  store Sample.temp_dict = store Sample.temp_dict /\
  Sample.w0 = type_checked Sample.temp_dict Sample.w0 /\
  (Dict.get Examples.only_topic "value" = None /\
   KeyError "value" = KeyError "value" /\ Sample.temp_dict = Sample.temp_dict \/
   (_get_sorted_tuple_list (Dict.delitem Examples.only_topic "value") = [] /\
    unzip_labels (_get_sorted_tuple_list (Dict.delitem Examples.only_topic "value"))
      = Raise (KeyError "value") /\ Sample.temp_dict = Sample.temp_dict) \/
   exists names vals,
     unzip_labels (_get_sorted_tuple_list (Dict.delitem Examples.only_topic "value"))
       = Ok (names, vals) /\
     series_key names vals = Raise (KeyError "value") /\
     Sample.temp_dict = set_names "temp" names Sample.temp_dict).
Proof.
  exact (@export_raises sample_lib "temp" Examples.only_topic Sample.temp_dict
           Sample.temp_dict Sample.w0 Sample.w0 (KeyError "value") eq_refl).
Defined.

(** X10 at a [replace] rule followed by a [drop] rule that rejects. *)
Lemma relabel_rules_frame_witness :
  Dict.get (Dict.setitem Sample.labels0 "sensor" "home/kitchen/temp") "__value__"
    = Dict.get Sample.labels0 "__value__".
Proof.
  refine (proj1 (proj2
    (@relabel_rules_frame sample_lib Examples.sensor_then_drop Sample.labels0
       (Dict.setitem Sample.labels0 "sensor" "home/kitchen/temp") false _))
    "__value__" _).
  - reflexivity.
  - intros lc [<-|[<-|[]]] _; discriminate.
Defined.

(** X11 at a [replace] rule on the label [sensor], which no rule has set. *)
Lemma absent_source_label_raises_witness :
  _update_metrics Sample.kitchen [Examples.room_then_keep; Sample.temp] Sample.w0
    = (Raise (KeyError "sensor"), [Examples.room_then_keep; Sample.temp],
       Sample.w0).
Proof.
  refine (proj2 (proj2 (proj2 (proj2
    (@absent_source_label_raises sample_lib Examples.room_then_keep
       [Sample.temp] Sample.kitchen Sample.w0 Sample.room_from_sensor
       [Sample.keep_garage] [] [] "sensor" _ _ _ _))))).
  - reflexivity.
  - reflexivity.
  - intros x [].
  - reflexivity.
Defined.

(** X12 at a payload that is not a number. *)
Lemma update_metric_returns_witness :
  exists m' w', update_metric Sample.warm Sample.temp Sample.w0 = (Ok tt, m', w').
Proof.
  refine (@update_metric_returns sample_lib Sample.warm Sample.temp Sample.w0
            true (initial_labels Sample.temp Sample.warm) _).
  reflexivity.
Defined.

(** X16 at a message from the garden. *)
Lemma on_message_no_match_witness :
  _on_message Examples.soil Examples.userdata Sample.w0
    = (Ok tt, Examples.userdata, Sample.w0).
Proof.
  refine (@on_message_no_match sample_lib Examples.soil Examples.userdata
            Sample.w0 _).
  intros entry [<-|[<-|[]]]; reflexivity.
Defined.

(** X17 at a pattern that is a prefix of the topic. *)
Lemma topic_matches_literal_witness :
  _topic_matches (lib := sample_lib) "net/packets" "net/packets/in" = Ok false.
Proof.
  refine (@topic_matches_literal sample_lib "net/packets" "net/packets/in" _ _).
  - reflexivity.
  - reflexivity.
Defined.

(** X18 at a gauge and a counter. *)
Lemma collect_gauges_counters_witness :
  collect Examples.userdata
    = ([gauge_family (self Sample.temp);
        counter_family (self Sample.counter_metric)], Ok tt).
Proof.
  refine (@collect_gauges_counters sample_lib Examples.userdata _).
  intros d [<-|[<-|[]]]; [left|right]; reflexivity.
Defined.

(** X21 at the first message from the kitchen. *)
Lemma publish_then_scrape_witness :
  let '(r, userdata', w') :=
    _on_message Sample.kitchen [("home/+/temp", [Sample.temp])] Sample.w0 in
  r = Ok tt /\
  w' = World [] 1 /\
  collect userdata'
  = ([Family GaugeMetricFamily "temp" "Temperature" None (Some ["topic"])
             [([PStr "home/+/temp"], @PFloat sample_lib (Decimal 215 1))];
      Family GaugeMetricFamily "temp_last_received"
             "Last received message for 'temp'" None (Some ["topic"])
             [([PStr "home/+/temp"], PInt 1700000000000)]],
     Ok tt).
Proof.
  refine (@publish_then_scrape sample_lib Sample.temp Sample.kitchen Sample.w0
            (Decimal 215 1) _ _ _ _ _ _).
  - reflexivity.
  - reflexivity.
  - reflexivity.
  - reflexivity.
  - reflexivity.
  - reflexivity.
Defined.

(** X22 at labels with a user label. *)
Lemma finalize_labels_spec_witness :
  exists final,
    finalize_labels Examples.finished_labels = Ok final /\
    Dict.get final "value" = Some (@PFloat sample_lib (Decimal 215 1)) /\
    Dict.get final "topic" = Some (PStr "home/+/temp") /\
    (forall k, Str.startswith k "__" = true -> Dict.get final k = None) /\
    (forall k, Str.startswith k "__" = false -> k <> "value" -> k <> "topic" ->
               Dict.get final k = Dict.get Examples.finished_labels k).
Proof.
  refine (@finalize_labels_spec sample_lib Examples.finished_labels _ _ _ _).
  - reflexivity.
  - reflexivity.
Defined.
